(** * PayTap WebSocket relay: connection registry and broadcast routing

    A shallow embedding of [server.js].  The server is a set of event
    handlers that run to completion over shared mutable state: the
    [clients] Map, the socket set [wss.clients] owned by the [ws] package,
    and the timers registered with [setTimeout].  Every handler is a
    function from the state before to the state after; the calls a handler
    makes on sockets and on the process are appended to a trace, oldest
    first, so that "what was sent to whom" can be read off the state.
    What is printed with [console.log] is not kept; of a log line the
    model keeps only the conversion of message fields to text inside its
    template literal, because that conversion can raise. *)

From Stdlib Require Import ZArith List String Bool Lia DecimalString.
Import ListNotations.
Open Scope string_scope.
Open Scope list_scope.
Set Warnings "-register-all".

(** ** Values *)

(** The result of [JSON.parse]: a JavaScript value built from JSON.
    Numbers are kept as integers, which covers every number the server
    itself produces ([Date.now()]); on inbound numbers the server only
    tests truthiness.  An object is its list of own properties. *)
Inductive JSON : Type :=
| JNull
| JBool (b : bool)
| JNum (n : Z)
| JStr (s : string)
| JArr (items : list JSON)
| JObj (props : list (string * JSON)).

Fixpoint assoc (k : string) (props : list (string * JSON)) : option JSON :=
  match props with
  | [] => None
  | (k', v) :: rest => if k' =? k then Some v else assoc k rest
  end.

(** [message.k] on a non-null value; [None] stands for [undefined].  The
    server reads only [type], [device_id], [rfid_uid], [amount] and
    [network], none of which exists on a primitive or on a prototype. *)
Definition prop (message : JSON) (k : string) : option JSON :=
  match message with
  | JObj props => assoc k props
  | _ => None
  end.

(** JavaScript truthiness, as tested by [if (message.device_id)]. *)
Definition truthy (v : JSON) : bool :=
  match v with
  | JNull => false
  | JBool b => b
  | JNum n => negb (Z.eqb n 0)
  | JStr s => negb (s =? "")
  | JArr _ => true
  | JObj _ => true
  end.

(** Whether [`${v}`] yields text.  An object turns into text through
    [toString]; a parsed object that carries a property of that name hides
    the inherited method behind a value that cannot be called, and the
    conversion raises a TypeError.  An array joins the text of its
    items. *)
Fixpoint printable (v : JSON) : bool :=
  match v with
  | JArr items => forallb printable items
  | JObj props => negb (existsb (fun p => fst p =? "toString") props)
  | _ => true
  end.

(** A template literal that interpolates these values ([None] is
    [undefined], which prints). *)
Definition interpolates (vs : list (option JSON)) : bool :=
  forallb (fun o => match o with Some v => printable v | None => true end) vs.

(** [v || dflt]. *)
Definition or_else (v : option JSON) (dflt : JSON) : option JSON :=
  match v with
  | Some x => if truthy x then Some x else Some dflt
  | None => Some dflt
  end.

(** An object literal as [JSON.stringify] serialises it: a property whose
    value is [undefined] is left out. *)
Fixpoint defined (fields : list (string * option JSON)) : list (string * JSON) :=
  match fields with
  | [] => []
  | (k, Some v) :: rest => (k, v) :: defined rest
  | (_, None) :: rest => defined rest
  end.

Definition literal (fields : list (string * option JSON)) : JSON :=
  JObj (defined fields).

(** The template literal [`TXN${Date.now()}`]. *)
Definition TXN (now : Z) : string :=
  String.append "TXN" (NilZero.string_of_int (Z.to_int now)).

(** One reading of the host clock: what [Date.now()] and
    [new Date().toISOString()] return inside one object literal. *)
Record Clock : Type := mkClock {
  Date_now : Z;
  toISOString : string
}.

(** ** The registry record and the state *)

(** A socket object is identified by a number; [client !== sender] is
    inequality of identifiers. *)
Definition conn : Type := nat.

(** The metadata object stored in the [clients] Map. *)
Record ClientData : Type := mkClientData {
  ip : string;
  connected_at : string;
  type : string;
  device_id : JSON;
  lastPing : Z
}.

Definition set_type (t : string) (d : ClientData) : ClientData :=
  mkClientData (ip d) (connected_at d) t (device_id d) (lastPing d).

Definition set_device_id (v : JSON) (d : ClientData) : ClientData :=
  mkClientData (ip d) (connected_at d) (type d) v (lastPing d).

Definition set_lastPing (now : Z) (d : ClientData) : ClientData :=
  mkClientData (ip d) (connected_at d) (type d) (device_id d) now.

(** Calls the server makes on a socket, on the listener or on the
    process. *)
Inductive Call : Type :=
| Send (c : conn) (m : JSON)
| Ping (c : conn)
| Close (c : conn) (code : Z) (reason : string)
| Terminate (c : conn)
| ServerClose
| Exit (code : Z).

(** The two callbacks the server hands to [setTimeout]. *)
Inductive Callback : Type :=
| PaymentCallback (message : JSON)
| ForcedShutdown.

Record Timer : Type := mkTimer {
  callback : Callback;
  delay : Z
}.

Record State : Type := mkState {
  NODE_ENV : string;                   (* configuration read at start-up *)
  wss_clients : list conn;             (* wss.clients, in insertion order *)
  readyState : conn -> Z;              (* client.readyState; 1 is OPEN *)
  clients : list (conn * ClientData);  (* the clients Map, in insertion order *)
  timers : list Timer;                 (* registered and not yet run *)
  listener_closing : bool;             (* server.close(cb) has been called *)
  exited : option Z;                   (* the code given to process.exit *)
  trace : list Call                    (* calls made so far, oldest first *)
}.

Definition set_wss_clients (l : list conn) (st : State) : State :=
  mkState (NODE_ENV st) l (readyState st) (clients st) (timers st)
          (listener_closing st) (exited st) (trace st).

Definition set_readyState (c : conn) (v : Z) (st : State) : State :=
  mkState (NODE_ENV st) (wss_clients st)
          (fun c' => if Nat.eqb c' c then v else readyState st c')
          (clients st) (timers st) (listener_closing st) (exited st) (trace st).

Definition set_clients (m : list (conn * ClientData)) (st : State) : State :=
  mkState (NODE_ENV st) (wss_clients st) (readyState st) m (timers st)
          (listener_closing st) (exited st) (trace st).

Definition set_timers (ts : list Timer) (st : State) : State :=
  mkState (NODE_ENV st) (wss_clients st) (readyState st) (clients st) ts
          (listener_closing st) (exited st) (trace st).

Definition set_listener_closing (b : bool) (st : State) : State :=
  mkState (NODE_ENV st) (wss_clients st) (readyState st) (clients st)
          (timers st) b (exited st) (trace st).

Definition set_exited (code : option Z) (st : State) : State :=
  mkState (NODE_ENV st) (wss_clients st) (readyState st) (clients st)
          (timers st) (listener_closing st) code (trace st).

(** Append calls to the trace. *)
Definition emit (cs : list Call) (st : State) : State :=
  mkState (NODE_ENV st) (wss_clients st) (readyState st) (clients st)
          (timers st) (listener_closing st) (exited st) (trace st ++ cs).

(** The state of a freshly started server. *)
Definition initial (env : string) : State :=
  mkState env [] (fun _ => 0%Z) [] [] false None [].

(** ** The [clients] Map *)

Module Map.

Fixpoint get (ws : conn) (m : list (conn * ClientData)) : option ClientData :=
  match m with
  | [] => None
  | (k, d) :: rest => if Nat.eqb k ws then Some d else get ws rest
  end.

(** [clients.set(ws, d)]: a present key keeps its place. *)
Fixpoint set (ws : conn) (d : ClientData) (m : list (conn * ClientData))
  : list (conn * ClientData) :=
  match m with
  | [] => [(ws, d)]
  | (k, d') :: rest =>
      if Nat.eqb k ws then (k, d) :: rest else (k, d') :: set ws d rest
  end.

(** [clients.delete(ws)]. *)
Fixpoint delete (ws : conn) (m : list (conn * ClientData))
  : list (conn * ClientData) :=
  match m with
  | [] => []
  | (k, d) :: rest =>
      if Nat.eqb k ws then delete ws rest else (k, d) :: delete ws rest
  end.

(** Mutation of the object obtained from [clients.get(ws)]: the Map
    holds a reference to it, so the change shows in the Map. *)
Fixpoint mutate (ws : conn) (f : ClientData -> ClientData)
         (m : list (conn * ClientData)) : list (conn * ClientData) :=
  match m with
  | [] => []
  | (k, d) :: rest =>
      if Nat.eqb k ws then (k, f d) :: rest else (k, d) :: mutate ws f rest
  end.

End Map.

(** [clients.get(client)?.type === t]. *)
Definition has_type (t : string) (st : State) (client : conn) : bool :=
  match Map.get client (clients st) with
  | Some clientData => type clientData =? t
  | None => false
  end.

(** [client.readyState === 1]. *)
Definition is_open (st : State) (client : conn) : bool :=
  Z.eqb (readyState st client) 1.

(** ** The transport, as the [ws] package documents it

    [send] hands the frame to the socket and returns; a transmission
    failure is reported later through the socket's ['error'] event and is
    not thrown to the caller.  [close] and [terminate] move an open socket
    to CLOSING (2); the socket reaches CLOSED (3) when its ['close'] event
    is emitted, at which point the package has already removed it from
    [wss.clients]. *)
Module Ws.

Definition send (c : conn) (m : JSON) (st : State) : State :=
  emit [Send c m] st.

Definition ping (c : conn) (st : State) : State :=
  emit [Ping c] st.

Definition close (c : conn) (code : Z) (reason : string) (st : State) : State :=
  let st' := emit [Close c code reason] st in
  if Z.eqb (readyState st c) 1 then set_readyState c 2 st' else st'.

Definition terminate (c : conn) (st : State) : State :=
  let st' := emit [Terminate c] st in
  if Z.eqb (readyState st c) 3 then st' else set_readyState c 2 st'.

Fixpoint remove (c : conn) (l : list conn) : list conn :=
  match l with
  | [] => []
  | x :: rest => if Nat.eqb x c then remove c rest else x :: remove c rest
  end.

(** What the package does to a new socket before it emits
    ['connection']. *)
Definition accepted (c : conn) (st : State) : State :=
  let l := wss_clients st in
  set_readyState c 1
    (set_wss_clients (if existsb (Nat.eqb c) l then l else l ++ [c]) st).

(** What the package does to a socket before it emits ['close']. *)
Definition closed (c : conn) (st : State) : State :=
  set_readyState c 3 (set_wss_clients (remove c (wss_clients st)) st).

End Ws.

(** [setTimeout(cb, ms)], [server.close(cb)] and [process.exit(code)]. *)
Definition setTimeout (cb : Callback) (ms : Z) (st : State) : State :=
  set_timers (timers st ++ [mkTimer cb ms]) st.

Definition server_close (st : State) : State :=
  set_listener_closing true (emit [ServerClose] st).

Definition process_exit (code : Z) (st : State) : State :=
  set_exited (Some code) (emit [Exit code] st).

(** ** Events the server constructs *)

Definition welcome (env : string) (clk : Clock) : JSON :=
  literal [("type", Some (JStr "welcome"));
           ("message", Some (JStr "Connected to PayTap WebSocket Server"));
           ("server_time", Some (JStr (toISOString clk)));
           ("environment", Some (JStr env))].

Definition esp32_confirmed (clk : Clock) : JSON :=
  literal [("type", Some (JStr "connection_confirmed"));
           ("message", Some (JStr "ESP32 connected successfully"));
           ("server_time", Some (JStr (toISOString clk)))].

Definition web_confirmed : JSON :=
  literal [("type", Some (JStr "connection_confirmed"));
           ("message", Some (JStr "Web client connected successfully"))].

Definition esp32_status (status : string) (id : option JSON) : JSON :=
  literal [("type", Some (JStr "esp32_status"));
           ("status", Some (JStr status));
           ("device_id", id)].

Definition rfid_scan (message : JSON) (clk : Clock) : JSON :=
  literal [("type", Some (JStr "rfid_scan"));
           ("rfid_uid", prop message "rfid_uid");
           ("device_id", prop message "device_id");
           ("network", prop message "network");
           ("timestamp", Some (JStr (toISOString clk)))].

Definition scan_received (message : JSON) : JSON :=
  literal [("type", Some (JStr "scan_received"));
           ("message", Some (JStr "Card scan received by server"));
           ("rfid_uid", prop message "rfid_uid")].

Definition payment_success (message : JSON) (clk : Clock) : JSON :=
  literal [("type", Some (JStr "payment_success"));
           ("rfid_uid", prop message "rfid_uid");
           ("amount", prop message "amount");
           ("transaction_id", Some (JStr (TXN (Date_now clk))));
           ("timestamp", Some (JStr (toISOString clk)))].

Definition payment_failed (message : JSON) (clk : Clock) : JSON :=
  literal [("type", Some (JStr "payment_failed"));
           ("rfid_uid", prop message "rfid_uid");
           ("reason", Some (JStr "Insufficient balance"));
           ("timestamp", Some (JStr (toISOString clk)))].

Definition pong (clk : Clock) : JSON :=
  literal [("type", Some (JStr "pong"));
           ("timestamp", Some (JNum (Date_now clk)))].

Definition error_event (error_message : string) : JSON :=
  literal [("type", Some (JStr "error"));
           ("message", Some (JStr "Invalid message format"));
           ("error", Some (JStr error_message))].

(** The messages of the two TypeErrors the handlers can raise (V8's
    wording): reading [message.type] when [JSON.parse] returned [null], and
    interpolating a value that does not convert to text. *)
Definition null_type_error : string :=
  "Cannot read properties of null (reading 'type')".

Definition conversion_error : string :=
  "Cannot convert object to primitive value".

(** How a block of statements ends: normally, or by raising. *)
Inductive Outcome : Type :=
| Done (st : State)
| Thrown (error_message : string) (st : State).

(** ** Broadcast helpers *)

(** One turn of [wss.clients.forEach]: send and count when the condition
    holds for this client. *)
Definition send_if (cond : State -> conn -> bool) (messageStr : JSON)
           (acc : nat * State) (client : conn) : nat * State :=
  let (count, st) := acc in
  if cond st client
  then (S count, Ws.send client messageStr st)
  else (count, st).

(** [client !== sender]; a [null] sender differs from every client. *)
Definition is_not (sender : option conn) (client : conn) : bool :=
  match sender with
  | Some ws => negb (Nat.eqb client ws)
  | None => true
  end.

Definition broadcastToAll (message : JSON) (sender : option conn) (st : State)
  : nat * State :=
  fold_left
    (send_if (fun s client => is_not sender client && is_open s client) message)
    (wss_clients st) (0, st).

Definition broadcastToESP32 (message : JSON) (st : State) : nat * State :=
  fold_left
    (send_if (fun s client => has_type "esp32" s client && is_open s client) message)
    (wss_clients st) (0, st).

Definition broadcastToWeb (message : JSON) (st : State) : nat * State :=
  fold_left
    (send_if (fun s client => has_type "web" s client && is_open s client) message)
    (wss_clients st) (0, st).

(** ** Connection handlers *)

(** [wss.on('connection')]: store the metadata and greet. *)
Definition on_connection (ws : conn) (clientIP : string) (clk1 clk2 : Clock)
           (st : State) : State :=
  let st1 :=
    set_clients
      (Map.set ws (mkClientData clientIP (toISOString clk1) "unknown" JNull
                                (Date_now clk1))
               (clients st)) st in
  Ws.send ws (welcome (NODE_ENV st1) clk2) st1.

(** The metadata update at the head of the message handler. *)
Definition touch (now : Z) (message : JSON) (clientData : ClientData)
  : ClientData :=
  let clientData := set_lastPing now clientData in
  match prop message "device_id" with
  | Some id => if truthy id then set_device_id id clientData else clientData
  | None => clientData
  end.

(** [if (clientData) clientData.type = t]. *)
Definition declare (ws : conn) (t : string) (st : State) : State :=
  set_clients (Map.mutate ws (set_type t) (clients st)) st.

(** [const success = true; if (success) { ... } else { ... }], with the
    flag as a parameter so that both branches can be examined. *)
Definition payment_outcome (success : bool) (message : JSON)
           (clkE clkW : Clock) (st : State) : State :=
  if success
  then snd (broadcastToWeb (payment_success message clkW)
              (snd (broadcastToESP32 (payment_success message clkE) st)))
  else snd (broadcastToESP32 (payment_failed message clkE) st).

(** The callback given to [setTimeout] by the [payment_request] case. *)
Definition payment_callback (message : JSON) (clkE clkW : Clock) (st : State)
  : State :=
  let success := true in
  payment_outcome success message clkE clkW st.

(** The [switch (message.type)] of the message handler.  A case label
    matches only a string equal to it.  Each case begins with its log
    lines. *)
Definition dispatch (ws : conn) (message : JSON) (clk : Clock) (st : State)
  : Outcome :=
  let default := Done (snd (broadcastToAll message (Some ws) st)) in
  match prop message "type" with
  | Some (JStr t) =>
      if t =? "esp32_connected" then
        let st1 := declare ws "esp32" st in
        if interpolates [prop message "device_id"] then
          let st2 := Ws.send ws (esp32_confirmed clk) st1 in
          Done (snd (broadcastToWeb
                       (esp32_status "connected" (prop message "device_id")) st2))
        else Thrown conversion_error st1
      else if t =? "web_connected" then
        let st1 := declare ws "web" st in
        Done (Ws.send ws web_confirmed st1)
      else if t =? "rfid_scan" then
        if interpolates [prop message "rfid_uid"; prop message "device_id";
                         or_else (prop message "network") (JStr "unknown")] then
          let st1 := snd (broadcastToWeb (rfid_scan message clk) st) in
          Done (Ws.send ws (scan_received message) st1)
        else Thrown conversion_error st
      else if t =? "payment_request" then
        if interpolates [prop message "amount"; prop message "rfid_uid"] then
          Done (setTimeout (PaymentCallback message) 1000 st)
        else Thrown conversion_error st
      else if t =? "ping" then
        Done (Ws.send ws (pong clk) st)
      else default
  | _ => default
  end.

(** The [try] block of the message handler.  [data] is the outcome of
    [JSON.parse(data.toString())]: the message of the SyntaxError it
    raised, or the value it returned.  The first log line reads
    [message.type] and prints it.  [now] is the clock reading stored in
    [lastPing]; [clk] is the reading used by the reply. *)
Definition handle (ws : conn) (data : string + JSON) (now : Z) (clk : Clock)
           (st : State) : Outcome :=
  match data with
  | inl syntax_error => Thrown syntax_error st
  | inr JNull => Thrown null_type_error st
  | inr message =>
      if interpolates [prop message "type"] then
        dispatch ws message clk
                 (set_clients (Map.mutate ws (touch now message) (clients st)) st)
      else Thrown conversion_error st
  end.

(** [try { ... } catch (error) { ws.send(...) }]. *)
Definition try_catch (ws : conn) (body : Outcome) : State :=
  match body with
  | Done st => st
  | Thrown error_message st => Ws.send ws (error_event error_message) st
  end.

(** [ws.on('message')]. *)
Definition on_message (ws : conn) (data : string + JSON) (now : Z) (clk : Clock)
           (st : State) : State :=
  try_catch ws (handle ws data now clk st).

(** [ws.on('close')]. *)
Definition on_close (ws : conn) (st : State) : State :=
  let st1 :=
    match Map.get ws (clients st) with
    | Some clientData =>
        if type clientData =? "esp32"
        then snd (broadcastToWeb
                    (esp32_status "disconnected" (Some (device_id clientData)))
                    st)
        else st
    | None => st
    end in
  set_clients (Map.delete ws (clients st1)) st1.

(** [ws.on('error')] only logs. *)
Definition on_error (ws : conn) (st : State) : State := st.

(** [ws.on('pong')]. *)
Definition on_pong (ws : conn) (now : Z) (st : State) : State :=
  set_clients (Map.mutate ws (set_lastPing now) (clients st)) st.

(** ** Keep-alive *)

(** The 30 s interval: ping every open client. *)
Definition ping_all (st : State) : State :=
  fold_left (fun s client => if is_open s client then Ws.ping client s else s)
            (wss_clients st) st.

(** [now - data.lastPing > 120000]. *)
Definition stale (now : Z) (data : ClientData) : bool :=
  Z.gtb (now - lastPing data) 120000.

(** The walk of [clients.forEach] in the 60 s interval: a stale entry is
    logged, with its [type] and [device_id], and its socket terminated.
    A log line that raises ends the walk. *)
Fixpoint sweep (now : Z) (entries : list (conn * ClientData)) (st : State)
  : Outcome :=
  match entries with
  | [] => Done st
  | (ws, data) :: rest =>
      if stale now data then
        if interpolates [Some (JStr (type data)); Some (device_id data)]
        then sweep now rest (Ws.terminate ws st)
        else Thrown conversion_error st
      else sweep now rest st
  end.

Definition eviction_sweep (now : Z) (st : State) : Outcome :=
  sweep now (clients st) st.

(** ** Shutdown *)

Definition shutdown (st : State) : State :=
  let st1 := fold_left (fun s client => Ws.close client 1000 "Server shutting down" s)
                       (wss_clients st) st in
  let st2 := server_close st1 in
  setTimeout ForcedShutdown 10000 st2.

(** The callback of [server.close]. *)
Definition on_server_closed (st : State) : State :=
  if listener_closing st then process_exit 0 st else st.

Definition on_uncaughtException (st : State) : State := shutdown st.

(** [process.on('unhandledRejection')] only logs. *)
Definition on_unhandledRejection (st : State) : State := st.

(** ** Timers and the event loop *)

Fixpoint remove_nth {A : Type} (k : nat) (l : list A) : list A :=
  match l, k with
  | [], _ => []
  | _ :: rest, O => rest
  | x :: rest, S k' => x :: remove_nth k' rest
  end.

Definition run_callback (cb : Callback) (clkE clkW : Clock) (st : State) : State :=
  match cb with
  | PaymentCallback message => payment_callback message clkE clkW st
  | ForcedShutdown => process_exit 1 st
  end.

(** The host runs the [k]-th registered timer, once. *)
Definition on_timeout (k : nat) (clkE clkW : Clock) (st : State) : State :=
  match nth_error (timers st) k with
  | Some t => run_callback (callback t) clkE clkW
                           (set_timers (remove_nth k (timers st)) st)
  | None => st
  end.

(** What the host can deliver to the server. *)
Inductive Event : Type :=
| Connection (ws : conn) (clientIP : string) (clk1 clk2 : Clock)
| Message (ws : conn) (data : string + JSON) (now : Z) (clk : Clock)
| Closed (ws : conn)
| Failed (ws : conn)
| Ponged (ws : conn) (now : Z)
| PingInterval
| SweepInterval (now : Z)
| Timeout (k : nat) (clkE clkW : Clock)
| Signal
| UncaughtException
| UnhandledRejection
| ListenerClosed.

(** An interval callback that raises has nobody to catch it: the host
    emits ['uncaughtException']. *)
Definition uncaught (body : Outcome) : State :=
  match body with
  | Done st => st
  | Thrown _ st => on_uncaughtException st
  end.

(** One turn of the event loop.  Nothing runs after [process.exit]. *)
Definition step (st : State) (e : Event) : State :=
  match exited st with
  | Some _ => st
  | None =>
      match e with
      | Connection ws clientIP clk1 clk2 =>
          on_connection ws clientIP clk1 clk2 (Ws.accepted ws st)
      | Message ws data now clk => on_message ws data now clk st
      | Closed ws => on_close ws (Ws.closed ws st)
      | Failed ws => on_error ws st
      | Ponged ws now => on_pong ws now st
      | PingInterval => ping_all st
      | SweepInterval now => uncaught (eviction_sweep now st)
      | Timeout k clkE clkW => on_timeout k clkE clkW st
      | Signal => shutdown st
      | UncaughtException => on_uncaughtException st
      | UnhandledRejection => on_unhandledRejection st
      | ListenerClosed => on_server_closed st
      end
  end.

Definition run (st : State) (events : list Event) : State :=
  fold_left step events st.

(** ** Vocabulary of the statements *)

(** The record of a connection and its fields, when it has one. *)
Definition record (st : State) (ws : conn) : option ClientData :=
  Map.get ws (clients st).

Definition role (st : State) (ws : conn) : option string :=
  option_map type (record st ws).

(** The clients a broadcast reaches. *)
Definition others_open (ws : conn) (st : State) : list conn :=
  filter (fun client => negb (Nat.eqb client ws) && is_open st client)
         (wss_clients st).

Definition open_with (t : string) (st : State) : list conn :=
  filter (fun client => has_type t st client && is_open st client)
         (wss_clients st).

Definition sends (m : JSON) (targets : list conn) : list Call :=
  map (fun client => Send client m) targets.

(** The failure of the parse step: [JSON.parse] threw, or it returned
    [null] and reading [message.type] threw.  Either way control reaches
    the [catch] block before anything else was done. *)
Definition parse_failure (data : string + JSON) : option string :=
  match data with
  | inl syntax_error => Some syntax_error
  | inr JNull => Some null_type_error
  | inr _ => None
  end.

(** The case labels of the switch. *)
Definition handled : list string :=
  ["esp32_connected"; "web_connected"; "rfid_scan"; "payment_request"; "ping"].

Definition is_handled (message : JSON) : bool :=
  match prop message "type" with
  | Some (JStr t) => existsb (String.eqb t) handled
  | _ => false
  end.

(** The type tag of a call, when the call is a send. *)
Definition sent_type (c : Call) : option JSON :=
  match c with
  | Send _ m => prop m "type"
  | _ => None
  end.

(** The event, if any, that registers socket [ws] anew. *)
Definition registers (ws : conn) (e : Event) : bool :=
  match e with
  | Connection ws' _ _ _ => Nat.eqb ws' ws
  | _ => false
  end.

(** Every record's [device_id] converts to text, as [null] and every
    string do. *)
Definition printable_ids (st : State) : Prop :=
  Forall (fun entry => printable (device_id (snd entry)) = true) (clients st).

(** ** A sample run

    A card reader (socket 1) connects and announces itself as device D1, a
    till (socket 2) connects and announces itself as a web client, and a
    third socket connects and stays silent. *)

Definition noon : Clock := mkClock 1700000000000 "2023-11-14T22:13:20.000Z".

Definition hello_esp32 : JSON :=
  JObj [("type", JStr "esp32_connected"); ("device_id", JStr "D1")].

Definition hello_web : JSON := JObj [("type", JStr "web_connected")].

Definition shop_floor : State :=
  Eval vm_compute in
  run (initial "production")
      [Connection 1 "10.0.0.1" noon noon;
       Message 1 (inr hello_esp32) 1700000000000 noon;
       Connection 2 "10.0.0.2" noon noon;
       Message 2 (inr hello_web) 1700000000000 noon;
       Connection 3 "10.0.0.3" noon noon].

Definition reader_socket : ClientData :=
  mkClientData "10.0.0.1" "2023-11-14T22:13:20.000Z" "esp32" (JStr "D1")
               1700000000000.

Definition silent_socket : ClientData :=
  mkClientData "10.0.0.3" "2023-11-14T22:13:20.000Z" "unknown" JNull 1700000000000.

(** The same shop floor after the till alone has answered a ping, one
    hundred seconds later. *)
Definition quiet_reader : State :=
  Eval vm_compute in run shop_floor [Ponged 2 1700000100000].

Definition charge : JSON :=
  JObj [("type", JStr "payment_request"); ("rfid_uid", JStr "04A1B2");
        ("amount", JNum 50)].

(** ** Further vocabulary *)

(** The state a block of statements leaves behind, however it ends. *)
Definition outcome_state (o : Outcome) : State :=
  match o with
  | Done st => st
  | Thrown _ st => st
  end.

(** The keys of the [clients] Map, in insertion order. *)
Definition keys (st : State) : list conn := map fst (clients st).

(** The three values the server ever stores in [type]. *)
Definition known_type (d : ClientData) : Prop :=
  type d = "unknown" \/ type d = "esp32" \/ type d = "web".

(** A [device_id] as the server stores it: the initial [null], or a value
    that passed [if (message.device_id)]. *)
Definition null_or_truthy (d : ClientData) : Prop :=
  device_id d = JNull \/ truthy (device_id d) = true.

(** ** The status route

    The array that the [/api/status] handler builds with
    [clients.forEach], and the count it reports beside it.  [getTime s] is
    [new Date(s).getTime()]; [clock k] is the reading of [Date.now()] at
    the [k]-th entry; [Math.floor] of a quotient of integers is [Z.div]. *)
Definition status_entry (getTime : string -> Z) (now : Z) (data : ClientData)
  : JSON :=
  literal [("type", Some (JStr (type data)));
           ("device_id", Some (device_id data));
           ("connected_at", Some (JStr (connected_at data)));
           ("duration",
            Some (JNum (Z.div (now - getTime (connected_at data)) 1000)))].

Fixpoint clientList_from (getTime : string -> Z) (clock : nat -> Z) (k : nat)
         (entries : list (conn * ClientData)) : list JSON :=
  match entries with
  | [] => []
  | (_, data) :: rest =>
      status_entry getTime (clock k) data
      :: clientList_from getTime clock (S k) rest
  end.

Definition clientList (getTime : string -> Z) (clock : nat -> Z) (st : State)
  : list JSON :=
  clientList_from getTime clock 0 (clients st).

(** [wss.clients.size], reported as [total_connections] and, by the two
    health routes, as [connections]. *)
Definition total_connections (st : State) : nat :=
  List.length (wss_clients st).

(** ** A second sample run

    The silent socket of the shop floor sends a [ping] whose [device_id]
    is an object with a property named [toString]. *)
Definition poison : JSON :=
  JObj [("type", JStr "ping"); ("device_id", JObj [("toString", JNum 1)])].

Definition poisoned_floor : State :=
  Eval vm_compute in run shop_floor [Message 3 (inr poison) 1700000000500 noon].

Definition till_record : ClientData :=
  mkClientData "10.0.0.2" "2023-11-14T22:13:20.000Z" "web" JNull 1700000000000.

Definition poisoned_record : ClientData :=
  mkClientData "10.0.0.3" "2023-11-14T22:13:20.000Z" "unknown"
               (JObj [("toString", JNum 1)]) 1700000000500.

Definition scan : JSON :=
  JObj [("type", JStr "rfid_scan"); ("rfid_uid", JStr "04A1B2");
        ("device_id", JStr "D1")].

(** ** Basic facts *)

Lemma emit_nil st : emit [] st = st.
Proof. destruct st; unfold emit; simpl. now rewrite app_nil_r. Qed.

Lemma emit_emit a b st : emit b (emit a st) = emit (a ++ b) st.
Proof. unfold emit; simpl. now rewrite app_assoc. Qed.

Section Loop.

Variable cond : State -> conn -> bool.
Variable m : JSON.
Hypothesis cond_emit : forall cs s client, cond (emit cs s) client = cond s client.

Lemma forEach_send_if l : forall n st,
  fold_left (send_if cond m) l (n, st)
  = (n + List.length (filter (cond st) l),
     emit (sends m (filter (cond st) l)) st).
Proof.
  induction l as [|client l IH]; intros n st; simpl.
  - now rewrite emit_nil, Nat.add_0_r.
  - destruct (cond st client) eqn:E.
    + unfold Ws.send. rewrite IH, emit_emit.
      rewrite (filter_ext _ _ (cond_emit [Send client m] st)).
      simpl. f_equal. lia.
    + apply IH.
Qed.

End Loop.

Lemma broadcastToAll_eq message sender st :
  broadcastToAll message sender st
  = (List.length (filter (fun c => is_not sender c && is_open st c) (wss_clients st)),
     emit (sends message
             (filter (fun c => is_not sender c && is_open st c) (wss_clients st)))
          st).
Proof.
  unfold broadcastToAll.
  now rewrite (forEach_send_if
                 (fun s c => is_not sender c && is_open s c) message).
Qed.

Lemma broadcastToESP32_eq message st :
  broadcastToESP32 message st
  = (List.length (open_with "esp32" st), emit (sends message (open_with "esp32" st)) st).
Proof.
  unfold broadcastToESP32.
  now rewrite (forEach_send_if
                 (fun s c => has_type "esp32" s c && is_open s c) message).
Qed.

Lemma broadcastToWeb_eq message st :
  broadcastToWeb message st
  = (List.length (open_with "web" st), emit (sends message (open_with "web" st)) st).
Proof.
  unfold broadcastToWeb.
  now rewrite (forEach_send_if
                 (fun s c => has_type "web" s c && is_open s c) message).
Qed.

Lemma in_open_with t st c :
  In c (open_with t st) <->
  In c (wss_clients st) /\ role st c = Some t /\ readyState st c = 1%Z.
Proof.
  unfold open_with, has_type, is_open, role, record.
  rewrite filter_In, andb_true_iff, Z.eqb_eq.
  destruct (Map.get c (clients st)) as [d|]; simpl.
  - rewrite String.eqb_eq. intuition congruence.
  - intuition congruence.
Qed.

Lemma in_others_open ws st c :
  In c (others_open ws st) <->
  In c (wss_clients st) /\ c <> ws /\ readyState st c = 1%Z.
Proof.
  unfold others_open, is_open.
  rewrite filter_In, andb_true_iff, negb_true_iff, Nat.eqb_neq, Z.eqb_eq.
  tauto.
Qed.

Lemma in_sends m targets c m' :
  In (Send c m') (sends m targets) <-> In c targets /\ m' = m.
Proof.
  unfold sends. rewrite in_map_iff. split.
  - intros [x [E H]]. inversion E; subst. auto.
  - intros [H ->]. now exists c.
Qed.

Lemma get_mutate ws f m c :
  Map.get c (Map.mutate ws f m)
  = if Nat.eqb c ws then option_map f (Map.get c m) else Map.get c m.
Proof.
  induction m as [|[k d] m IH]; simpl.
  - now destruct (Nat.eqb c ws).
  - destruct (Nat.eqb k ws) eqn:Ek; simpl.
    + apply Nat.eqb_eq in Ek; subst k.
      destruct (Nat.eqb ws c) eqn:Ec.
      * apply Nat.eqb_eq in Ec; subst c. now rewrite Nat.eqb_refl.
      * rewrite Nat.eqb_sym, Ec. reflexivity.
    + destruct (Nat.eqb k c) eqn:Ec.
      * apply Nat.eqb_eq in Ec; subst c. now rewrite Ek.
      * apply IH.
Qed.

Lemma get_delete ws m c :
  Map.get c (Map.delete ws m) = if Nat.eqb c ws then None else Map.get c m.
Proof.
  induction m as [|[k d] m IH]; simpl.
  - now destruct (Nat.eqb c ws).
  - destruct (Nat.eqb k ws) eqn:Ek; simpl.
    + apply Nat.eqb_eq in Ek; subst k. rewrite IH.
      destruct (Nat.eqb ws c) eqn:Ec.
      * apply Nat.eqb_eq in Ec; subst c. now rewrite Nat.eqb_refl.
      * rewrite Nat.eqb_sym, Ec. reflexivity.
    + destruct (Nat.eqb k c) eqn:Ec.
      * apply Nat.eqb_eq in Ec; subst c. now rewrite Ek.
      * apply IH.
Qed.

Lemma get_set ws d m c :
  Map.get c (Map.set ws d m) = if Nat.eqb c ws then Some d else Map.get c m.
Proof.
  induction m as [|[k d'] m IH]; simpl.
  - rewrite (Nat.eqb_sym ws c). now destruct (Nat.eqb c ws).
  - destruct (Nat.eqb k ws) eqn:Ek; simpl.
    + apply Nat.eqb_eq in Ek; subst k.
      destruct (Nat.eqb ws c) eqn:Ec.
      * apply Nat.eqb_eq in Ec; subst c. now rewrite Nat.eqb_refl.
      * rewrite Nat.eqb_sym, Ec. reflexivity.
    + destruct (Nat.eqb k c) eqn:Ec.
      * apply Nat.eqb_eq in Ec; subst c. now rewrite Ek.
      * apply IH.
Qed.

(** ** Malformed payloads *)

(** C2.  When the parse step of the message handler fails, the handler
    does one thing only: it sends one event of type [error] to the
    connection the payload came from.  The socket's [readyState] is left as
    it was and neither [close] nor [terminate] is called, so the connection
    stays open; the registry, the socket set and the timers are
    untouched. *)
Theorem malformed_payload_single_error ws data now clk st e :
  parse_failure data = Some e ->
  on_message ws data now clk st = emit [Send ws (error_event e)] st
  /\ trace (on_message ws data now clk st) = trace st ++ [Send ws (error_event e)]
  /\ sent_type (Send ws (error_event e)) = Some (JStr "error")
  /\ readyState (on_message ws data now clk st) = readyState st
  /\ clients (on_message ws data now clk st) = clients st
  /\ wss_clients (on_message ws data now clk st) = wss_clients st.
Proof.
  intros H.
  assert (E : on_message ws data now clk st = emit [Send ws (error_event e)] st).
  { destruct data as [err|[]]; simpl in H; inversion H; subst; reflexivity. }
  rewrite E. repeat split.
Qed.

Lemma malformed_payload_single_error_witness :
  parse_failure (inl "Unexpected token h in JSON at position 0")
  = Some "Unexpected token h in JSON at position 0"
  /\ trace (on_message 2 (inl "Unexpected token h in JSON at position 0")
                       1700000000500 noon shop_floor)
     = trace shop_floor
       ++ [Send 2 (error_event "Unexpected token h in JSON at position 0")].
Proof.
  split; [reflexivity|].
  apply (malformed_payload_single_error 2
           (inl "Unexpected token h in JSON at position 0")
           1700000000500 noon shop_floor
           "Unexpected token h in JSON at position 0").
  reflexivity.
Defined.

(** ** Broadcasts *)

Lemma dispatch_default ws message clk st :
  is_handled message = false ->
  dispatch ws message clk st = Done (snd (broadcastToAll message (Some ws) st)).
Proof.
  unfold is_handled, dispatch.
  destruct (prop message "type") as [[| | |t| |]|]; try reflexivity.
  simpl. intros H.
  repeat (apply orb_false_iff in H;
          let E := fresh "E" in destruct H as [E H]; rewrite E; clear E).
  reflexivity.
Qed.

Lemma on_message_parsed ws message now clk st :
  message <> JNull ->
  interpolates [prop message "type"] = true ->
  on_message ws (inr message) now clk st
  = try_catch ws
      (dispatch ws message clk
         (set_clients (Map.mutate ws (touch now message) (clients st)) st)).
Proof.
  intros Hnull Hlog. unfold on_message, handle.
  destruct message; try (now rewrite Hlog). now elim Hnull.
Qed.





(** ** Announcements *)

Lemma prop_type_not_null message v : prop message "type" = Some v -> message <> JNull.
Proof. intros H E. subst. discriminate. Qed.

Lemma on_message_string_type ws message now clk st t :
  prop message "type" = Some (JStr t) ->
  on_message ws (inr message) now clk st
  = try_catch ws
      (dispatch ws message clk
         (set_clients (Map.mutate ws (touch now message) (clients st)) st)).
Proof.
  intros H. apply on_message_parsed.
  - exact (prop_type_not_null _ _ H).
  - now rewrite H.
Qed.

Lemma on_message_esp32_connected ws message now clk st :
  prop message "type" = Some (JStr "esp32_connected") ->
  interpolates [prop message "device_id"] = true ->
  on_message ws (inr message) now clk st
  = snd (broadcastToWeb
           (esp32_status "connected" (prop message "device_id"))
           (Ws.send ws (esp32_confirmed clk)
              (declare ws "esp32"
                 (set_clients (Map.mutate ws (touch now message) (clients st)) st)))).
Proof.
  intros H Hlog. rewrite (on_message_string_type _ _ _ _ _ _ H).
  unfold dispatch. rewrite H. simpl String.eqb. cbv iota. now rewrite Hlog.
Qed.

Lemma esp32_status_fields status id :
  prop (esp32_status status id) "type" = Some (JStr "esp32_status")
  /\ prop (esp32_status status id) "status" = Some (JStr status)
  /\ prop (esp32_status status id) "device_id" = id.
Proof. destruct id; repeat split. Qed.



(** ** The metadata update *)

Lemma fold_left_clients {A : Type} (f : State -> A -> State) (l : list A) :
  (forall s a, clients (f s a) = clients s) ->
  forall st, clients (fold_left f l st) = clients st.
Proof.
  intros H. induction l as [|a l IH]; intros st; simpl; [reflexivity|].
  now rewrite IH, H.
Qed.

(** The switch leaves the Map alone, except that the two announcements
    overwrite the sender's [type] with a role; this holds whether the case
    ends normally or in the [catch] block. *)
Lemma dispatch_clients ws message clk st :
  clients (try_catch ws (dispatch ws message clk st)) = clients st
  \/ exists t, (t = "esp32" \/ t = "web")
               /\ clients (try_catch ws (dispatch ws message clk st))
                  = Map.mutate ws (set_type t) (clients st).
Proof.
  unfold dispatch. rewrite broadcastToAll_eq.
  destruct (prop message "type") as [[| | |t| |]|]; try (left; reflexivity).
  destruct (t =? "esp32_connected").
  { right. exists "esp32". split; [now left|].
    destruct (interpolates [prop message "device_id"]); [|reflexivity].
    simpl. now rewrite broadcastToWeb_eq. }
  destruct (t =? "web_connected").
  { right. exists "web". split; [now right|]. reflexivity. }
  destruct (t =? "rfid_scan").
  { left. destruct (interpolates _); [|reflexivity].
    simpl. now rewrite broadcastToWeb_eq. }
  destruct (t =? "payment_request").
  { left. now destruct (interpolates _). }
  destruct (t =? "ping"); left; reflexivity.
Qed.

Lemma dispatch_keeps_liveness ws message clk st c :
  option_map lastPing (record (try_catch ws (dispatch ws message clk st)) c)
  = option_map lastPing (record st c)
  /\ option_map device_id (record (try_catch ws (dispatch ws message clk st)) c)
     = option_map device_id (record st c).
Proof.
  unfold record.
  destruct (dispatch_clients ws message clk st) as [E|[t [_ E]]]; rewrite E.
  - now split.
  - rewrite get_mutate.
    destruct (Nat.eqb c ws); [|now split].
    destruct (Map.get c (clients st)); now split.
Qed.

(** C6, as the code has it.  A payload that parses to a value other than
    [null] and whose [type] the first log line can print (as it can every
    string), arriving on a registered connection, always refreshes the
    record's [lastPing], whatever its [type]; the record's [device_id] is
    overwritten with the message's [device_id] when that value is truthy,
    and is left as it was when the field is absent or falsy. *)
Theorem message_refreshes_liveness ws message now clk st d :
  message <> JNull ->
  interpolates [prop message "type"] = true ->
  record st ws = Some d ->
  exists d',
    record (on_message ws (inr message) now clk st) ws = Some d'
    /\ lastPing d' = now
    /\ device_id d'
       = match prop message "device_id" with
         | Some id => if truthy id then id else device_id d
         | None => device_id d
         end.
Proof.
  intros Hnull Hlog Hrec.
  rewrite (on_message_parsed _ _ _ _ _ Hnull Hlog).
  set (st1 := set_clients (Map.mutate ws (touch now message) (clients st)) st).
  assert (H1 : record st1 ws = Some (touch now message d)).
  { unfold record, st1. simpl. rewrite get_mutate, Nat.eqb_refl.
    unfold record in Hrec. now rewrite Hrec. }
  destruct (dispatch_keeps_liveness ws message clk st1 ws) as [Hp Hd].
  rewrite H1 in Hp, Hd.
  destruct (record (try_catch ws (dispatch ws message clk st1)) ws) as [d'|];
    [|discriminate].
  exists d'. split; [reflexivity|].
  simpl in Hp, Hd. inversion Hp as [Hp']. inversion Hd as [Hd'].
  rewrite Hp', Hd'. unfold touch.
  destruct (prop message "device_id") as [id|]; [destruct (truthy id)|];
    split; reflexivity.
Qed.

Lemma message_refreshes_liveness_witness :
  exists d',
    record (on_message 1 (inr (JObj [("type", JStr "ping");
                                     ("device_id", JStr "D9")]))
                       1700000000500 noon shop_floor) 1 = Some d'
    /\ lastPing d' = 1700000000500%Z
    /\ device_id d' = JStr "D9".
Proof.
  assert (Hnull : JObj [("type", JStr "ping"); ("device_id", JStr "D9")] <> JNull).
  { discriminate. }
  destruct (message_refreshes_liveness 1
              (JObj [("type", JStr "ping"); ("device_id", JStr "D9")])
              1700000000500 noon shop_floor reader_socket Hnull eq_refl eq_refl)
    as [d' [H1 [H2 H3]]].
  exists d'. vm_compute in H1, H3 |- *. auto.
Defined.

(** C6, as the claim has it, fails: a message that carries the field
    [device_id] with the empty string leaves the record's [device_id] at
    its former value "D1". *)
Lemma falsy_device_id_is_not_stored :
  let message := JObj [("type", JStr "ping"); ("device_id", JStr "")] in
  let st' := on_message 1 (inr message) 1700000000500 noon shop_floor in
  prop message "device_id" = Some (JStr "")
  /\ option_map device_id (record shop_floor 1) = Some (JStr "D1")
  /\ option_map device_id (record st' 1) = Some (JStr "D1")
  /\ option_map device_id (record st' 1) <> Some (JStr "").
Proof.
  vm_compute. repeat split; discriminate.
Qed.

(** ** Roles *)

Lemma type_touch now message d : type (touch now message d) = type d.
Proof.
  unfold touch. destruct (prop message "device_id") as [id|]; [|reflexivity].
  now destruct (truthy id).
Qed.

Lemma shutdown_clients st : clients (shutdown st) = clients st.
Proof.
  unfold shutdown. simpl. apply fold_left_clients.
  intros s a. unfold Ws.close. now destruct (Z.eqb (readyState s a) 1).
Qed.

Lemma ping_all_clients st : clients (ping_all st) = clients st.
Proof.
  unfold ping_all. apply fold_left_clients.
  intros s a. now destruct (is_open s a).
Qed.

Lemma sweep_clients now entries : forall st,
  clients (uncaught (sweep now entries st)) = clients st.
Proof.
  induction entries as [|[ws data] entries IH]; intros st; cbn [sweep];
    [reflexivity|].
  destruct (stale now data); [|apply IH].
  destruct (interpolates _).
  - rewrite IH. unfold Ws.terminate.
    now destruct (Z.eqb (readyState st ws) 3).
  - simpl. apply shutdown_clients.
Qed.

Lemma payment_callback_eq message clkE clkW st :
  payment_callback message clkE clkW st
  = emit (sends (payment_success message clkE) (open_with "esp32" st)
          ++ sends (payment_success message clkW) (open_with "web" st)) st.
Proof.
  unfold payment_callback, payment_outcome.
  rewrite broadcastToESP32_eq. cbn [snd].
  rewrite broadcastToWeb_eq. cbn [snd].
  now rewrite emit_emit.
Qed.

Lemma on_timeout_clients k clkE clkW st :
  clients (on_timeout k clkE clkW st) = clients st.
Proof.
  unfold on_timeout. destruct (nth_error (timers st) k) as [[cb ms]|]; [|reflexivity].
  destruct cb; simpl; [|reflexivity].
  now rewrite payment_callback_eq.
Qed.

Lemma on_close_clients ws st :
  clients (on_close ws st) = Map.delete ws (clients st).
Proof.
  unfold on_close. destruct (Map.get ws (clients st)) as [d|]; [|reflexivity].
  destruct (type d =? "esp32"); [|reflexivity].
  now rewrite broadcastToWeb_eq.
Qed.

(** What the message handler can do to the Map. *)
Lemma on_message_clients ws data now clk st :
  clients (on_message ws data now clk st) = clients st
  \/ exists message,
      clients (on_message ws data now clk st)
      = Map.mutate ws (touch now message) (clients st)
      \/ exists t, (t = "esp32" \/ t = "web")
                   /\ clients (on_message ws data now clk st)
                      = Map.mutate ws (set_type t)
                                   (Map.mutate ws (touch now message) (clients st)).
Proof.
  destruct data as [err|message]; [now left|].
  destruct (interpolates [prop message "type"]) eqn:Hlog.
  - destruct message; try (now left);
      match goal with
      | |- context [on_message ws (inr ?m)] =>
          right; exists m;
          (rewrite (on_message_parsed ws m now clk st) by (discriminate || exact Hlog));
          destruct (dispatch_clients ws m clk
                      (set_clients (Map.mutate ws (touch now m) (clients st)) st))
            as [E|[t [Ht E]]];
          [left; exact E | right; exists t; split; [exact Ht|exact E]]
      end.
  - left. unfold on_message, handle. destruct message; try reflexivity;
      now rewrite Hlog.
Qed.

(** What one turn of the event loop can do to the record of a socket that
    the turn does not register: delete it, or keep it with its [type]
    either unchanged or overwritten with a role. *)
Lemma step_record st e ws :
  registers ws e = false ->
  match record (step st e) ws with
  | None => True
  | Some d' => exists d, record st ws = Some d
                         /\ (type d' = type d \/ type d' = "esp32" \/ type d' = "web")
  end.
Proof.
  intros Hreg.
  assert (Same : forall s, clients s = clients st ->
                 match record s ws with
                 | None => True
                 | Some d' => exists d, record st ws = Some d
                                        /\ (type d' = type d \/ type d' = "esp32"
                                            \/ type d' = "web")
                 end).
  { intros s E. unfold record. rewrite E.
    destruct (Map.get ws (clients st)) as [d|]; [|exact I].
    exists d. auto. }
  unfold step. destruct (exited st); [now apply Same|].
  destruct e as [ws' cip c1 c2|ws' data now clk|ws'|ws'|ws' now| |now|k c1 c2| | | |].
  - simpl in Hreg. unfold record, on_connection. simpl.
    rewrite get_set, Nat.eqb_sym, Hreg. now apply (Same st).
  - destruct (on_message_clients ws' data now clk st) as [E|[m [E|[t [Ht E]]]]];
      [now apply Same| |]; unfold record; rewrite E, !get_mutate;
      (destruct (Nat.eqb ws ws'); [|now apply (Same st)]);
      (destruct (Map.get ws (clients st)) as [d|]; [|exact I]);
      exists d; (split; [reflexivity|]); simpl; rewrite ?type_touch; tauto.
  - unfold record. rewrite on_close_clients. simpl. rewrite get_delete.
    destruct (Nat.eqb ws ws'); [exact I|now apply (Same st)].
  - now apply Same.
  - unfold record, on_pong. simpl. rewrite get_mutate.
    destruct (Nat.eqb ws ws'); [|now apply (Same st)].
    destruct (Map.get ws (clients st)) as [d|]; [|exact I].
    exists d. split; [reflexivity|]. now left.
  - apply Same, ping_all_clients.
  - apply Same, sweep_clients.
  - apply Same, on_timeout_clients.
  - apply Same, shutdown_clients.
  - apply Same, shutdown_clients.
  - now apply Same.
  - apply Same. unfold on_server_closed. now destruct (listener_closing st).
Qed.

Lemma role_known_step st e ws :
  registers ws e = false ->
  role st ws <> Some "unknown" ->
  role (step st e) ws <> Some "unknown".
Proof.
  intros Hreg H. pose proof (step_record st e ws Hreg) as S.
  unfold role in *. destruct (record (step st e) ws) as [d'|]; [|discriminate].
  destruct S as [d [E [T|[T|T]]]]; simpl; rewrite T; try discriminate.
  now rewrite E in H.
Qed.

(** C4, as the code has it.  Registration stores the role [unknown]; an
    [esp32_connected] message sets the role of a registered sender to
    [esp32] and a [web_connected] message sets it to [web], whatever the
    role was before; and along any run in which the socket is not
    registered anew, a role other than [unknown] never becomes [unknown]
    again. *)
Theorem role_follows_latest_announcement ws :
  (forall st clientIP clk1 clk2,
      role (on_connection ws clientIP clk1 clk2 (Ws.accepted ws st)) ws
      = Some "unknown")
  /\ (forall st message now clk t,
        role st ws = Some t ->
        (prop message "type" = Some (JStr "esp32_connected") ->
         role (on_message ws (inr message) now clk st) ws = Some "esp32")
        /\ (prop message "type" = Some (JStr "web_connected") ->
            role (on_message ws (inr message) now clk st) ws = Some "web"))
  /\ (forall events st,
        forallb (fun e => negb (registers ws e)) events = true ->
        role st ws <> Some "unknown" ->
        role (run st events) ws <> Some "unknown").
Proof.
  split; [|split].
  - intros. unfold role, record, on_connection. simpl.
    now rewrite get_set, Nat.eqb_refl.
  - intros st message now clk t Ht.
    assert (R : forall t' s,
               clients s
               = clients (declare ws t'
                            (set_clients
                               (Map.mutate ws (touch now message) (clients st)) st)) ->
               role s ws = Some t').
    { intros t' s E. unfold role, record in *. rewrite E. simpl.
      rewrite !get_mutate, Nat.eqb_refl.
      now destruct (Map.get ws (clients st)). }
    split; intros Htype;
      rewrite (on_message_string_type _ _ _ _ _ _ Htype);
      unfold dispatch; rewrite Htype; simpl String.eqb; cbv iota; apply R.
    + destruct (interpolates [prop message "device_id"]); [|reflexivity].
      simpl. now rewrite broadcastToWeb_eq.
    + reflexivity.
  - induction events as [|e events IH]; intros st Hev H; simpl; [exact H|].
    simpl in Hev. apply andb_true_iff in Hev. destruct Hev as [He Hev].
    apply IH; [exact Hev|].
    apply role_known_step; [|exact H].
    now apply negb_true_iff.
Qed.

Lemma role_follows_latest_announcement_witness :
  role (run shop_floor [Message 2 (inr hello_esp32) 1700000000500 noon;
                        Ponged 2 1700000000600;
                        Message 2 (inl "Unexpected end of JSON input")
                                1700000000700 noon]) 2
  <> Some "unknown".
Proof.
  apply (proj2 (proj2 (role_follows_latest_announcement 2))).
  - reflexivity.
  - vm_compute. discriminate.
Defined.

(** C4, as the claim has it, fails: the till (socket 2) has announced
    itself as a web client, and a later [esp32_connected] on the same
    socket changes its role to [esp32]. *)
Lemma later_announcement_changes_role :
  role shop_floor 2 = Some "web"
  /\ role (step shop_floor (Message 2 (inr hello_esp32) 1700000000500 noon)) 2
     = Some "esp32".
Proof. vm_compute. split; reflexivity. Qed.

(** ** Eviction *)

Lemma get_In ws d m : Map.get ws m = Some d -> In (ws, d) m.
Proof.
  induction m as [|[k d'] m IH]; simpl; [discriminate|].
  destruct (Nat.eqb k ws) eqn:E.
  - apply Nat.eqb_eq in E. subst k. intros H. inversion H. now left.
  - intros H. right. now apply IH.
Qed.

Lemma in_Ws_remove c ws l : In c (Ws.remove ws l) <-> In c l /\ c <> ws.
Proof.
  induction l as [|x l IH]; simpl; [tauto|].
  destruct (Nat.eqb x ws) eqn:E.
  - apply Nat.eqb_eq in E. subst x. rewrite IH. intuition congruence.
  - apply Nat.eqb_neq in E. simpl. rewrite IH. intuition congruence.
Qed.

Lemma NoDup_Ws_remove ws l : NoDup l -> NoDup (Ws.remove ws l).
Proof.
  induction 1 as [|x l Hx Hl IH]; simpl; [constructor|].
  destruct (Nat.eqb x ws); [assumption|].
  constructor; [|assumption]. rewrite in_Ws_remove. tauto.
Qed.

Lemma terminate_not_open ws st c :
  readyState st c <> 1%Z -> readyState (Ws.terminate ws st) c <> 1%Z.
Proof.
  intros H. unfold Ws.terminate.
  destruct (Z.eqb (readyState st ws) 3); [exact H|].
  simpl. destruct (Nat.eqb c ws); [discriminate|exact H].
Qed.

Lemma terminate_closes ws st : readyState (Ws.terminate ws st) ws <> 1%Z.
Proof.
  unfold Ws.terminate. destruct (Z.eqb (readyState st ws) 3) eqn:E.
  - apply Z.eqb_eq in E. simpl. rewrite E. discriminate.
  - simpl. rewrite Nat.eqb_refl. discriminate.
Qed.

Lemma terminate_trace ws st :
  trace (Ws.terminate ws st) = trace st ++ [Terminate ws].
Proof. unfold Ws.terminate. now destruct (Z.eqb (readyState st ws) 3). Qed.

(** When every logged [device_id] prints, the walk visits every entry. *)
Lemma sweep_done now entries :
  Forall (fun entry => printable (device_id (snd entry)) = true) entries ->
  forall st, exists st',
    sweep now entries st = Done st'
    /\ trace st'
       = trace st ++ map (fun entry => Terminate (fst entry))
                         (filter (fun entry => stale now (snd entry)) entries)
    /\ (forall c, readyState st c <> 1%Z -> readyState st' c <> 1%Z)
    /\ (forall ws d, In (ws, d) entries -> stale now d = true ->
                     readyState st' ws <> 1%Z).
Proof.
  induction 1 as [|[ws data] entries Hp _ IH]; intros st.
  - exists st. simpl. rewrite app_nil_r.
    split; [reflexivity|]. split; [reflexivity|]. split; [auto|].
    intros ws d [].
  - cbn [sweep filter snd]. simpl in Hp.
    destruct (stale now data) eqn:Hst.
    + unfold interpolates. simpl. rewrite Hp. simpl.
      destruct (IH (Ws.terminate ws st)) as [st' [E [T [K L]]]].
      exists st'. split; [exact E|]. split.
      { rewrite T, terminate_trace, <- app_assoc. reflexivity. }
      split.
      { intros c Hc. now apply K, terminate_not_open. }
      intros ws' d' [Heq|Hin] Hd'.
      * inversion Heq; subst. apply K, terminate_closes.
      * now apply (L ws' d').
    + destruct (IH st) as [st' [E [T [K L]]]].
      exists st'. split; [exact E|]. split; [exact T|]. split; [exact K|].
      intros ws' d' [Heq|Hin] Hd'.
      * inversion Heq; subst. congruence.
      * now apply (L ws' d').
Qed.



(** ** The socket set

    [wss.clients] is a Set: along any run it lists no socket twice. *)

Lemma fold_left_wss {A : Type} (f : State -> A -> State) (l : list A) :
  (forall s a, wss_clients (f s a) = wss_clients s) ->
  forall st, wss_clients (fold_left f l st) = wss_clients st.
Proof.
  intros H. induction l as [|a l IH]; intros st; simpl; [reflexivity|].
  now rewrite IH, H.
Qed.

Lemma shutdown_wss st : wss_clients (shutdown st) = wss_clients st.
Proof.
  unfold shutdown. simpl. apply fold_left_wss.
  intros s a. unfold Ws.close. now destruct (Z.eqb (readyState s a) 1).
Qed.

Lemma sweep_wss now entries : forall st,
  wss_clients (uncaught (sweep now entries st)) = wss_clients st.
Proof.
  induction entries as [|[ws data] entries IH]; intros st; cbn [sweep];
    [reflexivity|].
  destruct (stale now data); [|apply IH].
  destruct (interpolates _).
  - rewrite IH. unfold Ws.terminate.
    now destruct (Z.eqb (readyState st ws) 3).
  - simpl. apply shutdown_wss.
Qed.

Lemma on_message_wss ws data now clk st :
  wss_clients (on_message ws data now clk st) = wss_clients st.
Proof.
  unfold on_message, handle, dispatch.
  destruct data as [err|message]; [reflexivity|].
  rewrite broadcastToAll_eq.
  destruct message; try reflexivity;
    repeat match goal with
           | |- context [match ?x with _ => _ end] => destruct x
           end;
    simpl; rewrite ?broadcastToWeb_eq; reflexivity.
Qed.

Lemma step_wss_NoDup st e :
  NoDup (wss_clients st) -> NoDup (wss_clients (step st e)).
Proof.
  intros H. unfold step. destruct (exited st); [exact H|].
  destruct e as [ws cip c1 c2|ws data now clk|ws|ws|ws now| |now|k c1 c2| | | |].
  - unfold on_connection, Ws.accepted. simpl.
    destruct (existsb (Nat.eqb ws) (wss_clients st)) eqn:E; [exact H|].
    apply NoDup_app; [exact H|repeat constructor; intros []|].
    intros x Hx [->|[]].
    assert (existsb (Nat.eqb x) (wss_clients st) = true); [|congruence].
    apply existsb_exists. exists x. split; [exact Hx|apply Nat.eqb_refl].
  - now rewrite on_message_wss.
  - unfold on_close. simpl.
    destruct (Map.get ws (clients st)) as [d|];
      [destruct (type d =? "esp32"); [rewrite broadcastToWeb_eq|]|];
      simpl; now apply NoDup_Ws_remove.
  - exact H.
  - exact H.
  - unfold ping_all. rewrite fold_left_wss; [exact H|].
    intros s a. now destruct (is_open s a).
  - unfold eviction_sweep. now rewrite sweep_wss.
  - unfold on_timeout. destruct (nth_error (timers st) k) as [[cb ms]|]; [|exact H].
    destruct cb; simpl; [|exact H]. now rewrite payment_callback_eq.
  - now rewrite shutdown_wss.
  - unfold on_uncaughtException. now rewrite shutdown_wss.
  - exact H.
  - unfold on_server_closed. now destruct (listener_closing st).
Qed.

Lemma socket_set_has_no_duplicates env events :
  NoDup (wss_clients (run (initial env) events)).
Proof.
  unfold run.
  assert (G : forall st, NoDup (wss_clients st) ->
                         NoDup (wss_clients (fold_left step events st))).
  { induction events as [|e events IH]; intros st H; simpl; [exact H|].
    now apply IH, step_wss_NoDup. }
  apply G. constructor.
Qed.

(** ** Payment requests *)

Lemma sends_type m targets :
  Forall (fun call => sent_type call = prop m "type") (sends m targets).
Proof.
  unfold sends. apply Forall_forall. intros call H.
  apply in_map_iff in H. destruct H as [c [<- _]]. reflexivity.
Qed.

(** C10.  The callback of a payment request takes the branch of
    [success = true] and no other: every call it makes is the sending of
    an event whose [type] is [payment_success], so none of them carries
    [payment_failed]. *)
Theorem payment_result_is_always_success message clkE clkW st :
  run_callback (PaymentCallback message) clkE clkW st
  = payment_outcome true message clkE clkW st
  /\ exists sent,
      trace (run_callback (PaymentCallback message) clkE clkW st) = trace st ++ sent
      /\ Forall (fun call => sent_type call = Some (JStr "payment_success")) sent
      /\ Forall (fun call => sent_type call <> Some (JStr "payment_failed")) sent.
Proof.
  split; [reflexivity|].
  exists (sends (payment_success message clkE) (open_with "esp32" st)
          ++ sends (payment_success message clkW) (open_with "web" st)).
  simpl. rewrite payment_callback_eq.
  split; [reflexivity|].
  assert (H : Forall (fun call => sent_type call = Some (JStr "payment_success"))
                     (sends (payment_success message clkE) (open_with "esp32" st)
                      ++ sends (payment_success message clkW) (open_with "web" st))).
  { apply Forall_app. split.
    - exact (sends_type (payment_success message clkE) _).
    - exact (sends_type (payment_success message clkW) _). }
  split; [exact H|].
  apply (Forall_impl _ (P := fun call => sent_type call = Some (JStr "payment_success")));
    [|exact H].
  intros call E. rewrite E. discriminate.
Qed.




(** ** Shutdown *)

Lemma close_all_trace l : forall st,
  trace (fold_left (fun s client => Ws.close client 1000 "Server shutting down" s)
                   l st)
  = trace st ++ map (fun client => Close client 1000 "Server shutting down") l.
Proof.
  induction l as [|c l IH]; intros st; simpl; [now rewrite app_nil_r|].
  rewrite IH. unfold Ws.close.
  destruct (Z.eqb (readyState st c) 1); simpl; now rewrite <- app_assoc.
Qed.

Lemma close_all_frame l : forall st,
  timers (fold_left (fun s client => Ws.close client 1000 "Server shutting down" s)
                    l st)
  = timers st
  /\ exited (fold_left (fun s client => Ws.close client 1000 "Server shutting down" s)
                       l st)
     = exited st.
Proof.
  induction l as [|c l IH]; intros st; simpl; [now split|].
  destruct (IH (Ws.close c 1000 "Server shutting down" st)) as [E1 E2].
  rewrite E1, E2. unfold Ws.close.
  now destruct (Z.eqb (readyState st c) 1).
Qed.

(** C9, as the code has it.  On a termination signal the server calls
    [close(1000, "Server shutting down")] on every client in
    [wss.clients], asks the listener to close, and registers a timer of
    10000 ms.  If the listener finishes first the process exits with code
    0; if the timer runs while the process is still alive the process
    exits with code 1.  An uncaught exception takes exactly this path.  An
    unhandled promise rejection does not: it changes nothing. *)
Theorem shutdown_is_graceful_then_forced st :
  exited st = None ->
  let st' := step st Signal in
  trace st'
  = trace st
    ++ map (fun client => Close client 1000 "Server shutting down") (wss_clients st)
    ++ [ServerClose]
  /\ timers st' = timers st ++ [mkTimer ForcedShutdown 10000]
  /\ listener_closing st' = true
  /\ exited st' = None
  /\ step st UncaughtException = st'
  /\ step st UnhandledRejection = st
  /\ (forall s k clkE clkW,
        exited s = None ->
        nth_error (timers s) k = Some (mkTimer ForcedShutdown 10000) ->
        exited (step s (Timeout k clkE clkW)) = Some 1%Z)
  /\ (forall s,
        exited s = None -> listener_closing s = true ->
        exited (step s ListenerClosed) = Some 0%Z).
Proof.
  intros Hrun st'. unfold st', step. rewrite Hrun.
  split.
  { unfold shutdown. simpl. now rewrite close_all_trace, <- app_assoc. }
  split.
  { unfold shutdown. simpl. now rewrite (proj1 (close_all_frame _ _)). }
  split; [reflexivity|].
  split.
  { unfold shutdown. simpl. now rewrite (proj2 (close_all_frame _ _)). }
  split; [reflexivity|]. split; [reflexivity|].
  split.
  - intros s k clkE clkW Hs Hk. rewrite Hs. unfold on_timeout. now rewrite Hk.
  - intros s Hs Hl. rewrite Hs. unfold on_server_closed. now rewrite Hl.
Qed.

Lemma shutdown_is_graceful_then_forced_witness :
  let st1 := step shop_floor Signal in
  trace st1
  = trace shop_floor
    ++ [Close 1 1000 "Server shutting down"; Close 2 1000 "Server shutting down";
        Close 3 1000 "Server shutting down"; ServerClose]
  /\ exited (step st1 (Timeout 0 noon noon)) = Some 1%Z
  /\ exited (step st1 ListenerClosed) = Some 0%Z.
Proof.
  destruct (shutdown_is_graceful_then_forced shop_floor eq_refl)
    as [H1 [_ [_ [_ [_ [_ [H7 H8]]]]]]].
  split; [vm_compute in H1 |- *; exact H1|].
  split.
  - exact (H7 (step shop_floor Signal) 0%nat noon noon eq_refl eq_refl).
  - exact (H8 (step shop_floor Signal) eq_refl eq_refl).
Defined.

(** C9, as the claim has it, fails for one kind of uncaught fault: an
    unhandled promise rejection is logged and nothing more, so no socket
    is closed, no timer is registered and the process keeps running. *)
Lemma unhandled_rejection_does_not_shut_down :
  let st' := step shop_floor UnhandledRejection in
  wss_clients shop_floor = [1; 2; 3]%nat
  /\ trace st' = trace shop_floor
  /\ timers st' = []
  /\ listener_closing st' = false
  /\ exited st' = None
  /\ trace (step shop_floor UncaughtException) <> trace shop_floor.
Proof.
  vm_compute. repeat split. discriminate.
Qed.

(** ** The registry along a run *)

Lemma keys_mutate ws f m : map fst (Map.mutate ws f m) = map fst m.
Proof.
  induction m as [|[k d] m IH]; simpl; [reflexivity|].
  destruct (Nat.eqb k ws); simpl; [reflexivity|]. now rewrite IH.
Qed.

Lemma keys_set ws d m :
  map fst (Map.set ws d m)
  = if existsb (Nat.eqb ws) (map fst m) then map fst m else map fst m ++ [ws].
Proof.
  induction m as [|[k d'] m IH]; simpl; [reflexivity|].
  rewrite (Nat.eqb_sym ws k).
  destruct (Nat.eqb k ws); simpl; [reflexivity|].
  rewrite IH. now destruct (existsb (Nat.eqb ws) (map fst m)).
Qed.

Lemma keys_delete ws m : map fst (Map.delete ws m) = Ws.remove ws (map fst m).
Proof.
  induction m as [|[k d] m IH]; simpl; [reflexivity|].
  destruct (Nat.eqb k ws); simpl; [exact IH|]. now rewrite IH.
Qed.

Lemma on_message_keys ws data now clk st :
  keys (on_message ws data now clk st) = keys st.
Proof.
  unfold keys.
  destruct (on_message_clients ws data now clk st) as [E|[m [E|[t [_ E]]]]];
    rewrite E, ?keys_mutate; reflexivity.
Qed.

Lemma ping_all_wss st : wss_clients (ping_all st) = wss_clients st.
Proof.
  unfold ping_all. apply fold_left_wss.
  intros s a. now destruct (is_open s a).
Qed.

Lemma on_timeout_wss k clkE clkW st :
  wss_clients (on_timeout k clkE clkW st) = wss_clients st.
Proof.
  unfold on_timeout. destruct (nth_error (timers st) k) as [[cb ms]|]; [|reflexivity].
  destruct cb; simpl; [|reflexivity]. now rewrite payment_callback_eq.
Qed.

Lemma on_close_wss ws st : wss_clients (on_close ws st) = wss_clients st.
Proof.
  unfold on_close. destruct (Map.get ws (clients st)) as [d|]; [|reflexivity].
  destruct (type d =? "esp32"); [|reflexivity].
  now rewrite broadcastToWeb_eq.
Qed.

Lemma step_keys st e : keys st = wss_clients st -> keys (step st e) = wss_clients (step st e).
Proof.
  intros H. unfold step. destruct (exited st); [exact H|].
  destruct e as [ws cip c1 c2|ws data now clk|ws|ws|ws now| |now|k c1 c2| | | |].
  - unfold keys, on_connection, Ws.accepted. simpl. rewrite keys_set.
    unfold keys in H. now rewrite H.
  - now rewrite on_message_keys, on_message_wss.
  - unfold keys. rewrite on_close_clients, on_close_wss, keys_delete. simpl.
    unfold keys in H. now rewrite H.
  - exact H.
  - unfold keys, on_pong. simpl. now rewrite keys_mutate.
  - unfold keys. now rewrite ping_all_clients, ping_all_wss.
  - unfold keys, eviction_sweep. now rewrite sweep_clients, sweep_wss.
  - unfold keys. now rewrite on_timeout_clients, on_timeout_wss.
  - unfold keys. now rewrite shutdown_clients, shutdown_wss.
  - unfold keys, on_uncaughtException. now rewrite shutdown_clients, shutdown_wss.
  - exact H.
  - unfold on_server_closed. now destruct (listener_closing st).
Qed.

Lemma run_keys env events :
  keys (run (initial env) events) = wss_clients (run (initial env) events).
Proof.
  unfold run.
  assert (G : forall st, keys st = wss_clients st ->
                         keys (fold_left step events st)
                         = wss_clients (fold_left step events st)).
  { induction events as [|e events IH]; intros st H; simpl; [exact H|].
    now apply IH, step_keys. }
  now apply G.
Qed.


Section RecordInvariant.

Variable P : ClientData -> Prop.
Hypothesis P_new : forall clientIP iso now,
    P (mkClientData clientIP iso "unknown" JNull now).
Hypothesis P_touch : forall now message d, P d -> P (touch now message d).
Hypothesis P_esp32 : forall d, P d -> P (set_type "esp32" d).
Hypothesis P_web : forall d, P d -> P (set_type "web" d).
Hypothesis P_lastPing : forall now d, P d -> P (set_lastPing now d).

Lemma Forall_mutate ws f m :
  (forall d, P d -> P (f d)) ->
  Forall (fun entry => P (snd entry)) m ->
  Forall (fun entry => P (snd entry)) (Map.mutate ws f m).
Proof.
  intros Hf. induction 1 as [|[k d] m Hd Hm IH]; simpl; [constructor|].
  simpl in Hd. destruct (Nat.eqb k ws); constructor; simpl; auto.
Qed.

Lemma Forall_set ws d m :
  P d ->
  Forall (fun entry => P (snd entry)) m ->
  Forall (fun entry => P (snd entry)) (Map.set ws d m).
Proof.
  intros Hd. induction 1 as [|[k d'] m Hd' Hm IH]; simpl.
  - repeat constructor. exact Hd.
  - simpl in Hd'. destruct (Nat.eqb k ws); constructor; simpl; auto.
Qed.

Lemma Forall_delete ws m :
  Forall (fun entry => P (snd entry)) m ->
  Forall (fun entry => P (snd entry)) (Map.delete ws m).
Proof.
  induction 1 as [|[k d] m Hd Hm IH]; simpl; [constructor|].
  destruct (Nat.eqb k ws); [assumption|constructor; auto].
Qed.

Lemma step_records st e :
  Forall (fun entry => P (snd entry)) (clients st) ->
  Forall (fun entry => P (snd entry)) (clients (step st e)).
Proof.
  intros H. unfold step. destruct (exited st); [exact H|].
  destruct e as [ws cip c1 c2|ws data now clk|ws|ws|ws now| |now|k c1 c2| | | |].
  - unfold on_connection. simpl. now apply Forall_set.
  - destruct (on_message_clients ws data now clk st) as [E|[m [E|[t [[->| ->] E]]]]];
      rewrite E; auto using Forall_mutate.
  - rewrite on_close_clients. simpl. now apply Forall_delete.
  - exact H.
  - unfold on_pong. simpl. auto using Forall_mutate.
  - now rewrite ping_all_clients.
  - unfold eviction_sweep. now rewrite sweep_clients.
  - now rewrite on_timeout_clients.
  - now rewrite shutdown_clients.
  - unfold on_uncaughtException. now rewrite shutdown_clients.
  - exact H.
  - unfold on_server_closed. now destruct (listener_closing st).
Qed.

Lemma run_records env events :
  Forall (fun entry => P (snd entry)) (clients (run (initial env) events)).
Proof.
  unfold run.
  assert (G : forall st, Forall (fun entry => P (snd entry)) (clients st) ->
                         Forall (fun entry => P (snd entry))
                                (clients (fold_left step events st))).
  { induction events as [|e events IH]; intros st H; simpl; [exact H|].
    now apply IH, step_records. }
  apply G. constructor.
Qed.

End RecordInvariant.

(** X2.  Along any run every record's [type] is one of the three strings
    the server writes: "unknown", "esp32" or "web".  No message can put
    another value there, whatever it carries. *)
Theorem record_types_are_known env events :
  Forall (fun entry => known_type (snd entry))
         (clients (run (initial env) events)).
Proof.
  apply run_records; unfold known_type; simpl; auto.
  intros now message d H. now rewrite type_touch.
Qed.

(** X3.  Along any run every record's [device_id] is either the [null] it
    was registered with or a truthy value: the empty string, zero, [false]
    and [null] sent by a client never replace a stored identifier. *)
Theorem device_ids_are_null_or_truthy env events :
  Forall (fun entry => null_or_truthy (snd entry))
         (clients (run (initial env) events)).
Proof.
  apply run_records; unfold null_or_truthy; simpl; auto.
  intros now message d H. unfold touch.
  destruct (prop message "device_id") as [id|]; [|exact H].
  destruct (truthy id) eqn:E; [|exact H]. simpl. now right.
Qed.

(** ** The other cases of the switch *)

Lemma has_type_touch t ws now message st c :
  has_type t (set_clients (Map.mutate ws (touch now message) (clients st)) st) c
  = has_type t st c.
Proof.
  unfold has_type. simpl. rewrite get_mutate.
  destruct (Nat.eqb c ws); [|reflexivity].
  destruct (Map.get c (clients st)); simpl; [|reflexivity].
  now rewrite type_touch.
Qed.

Lemma open_with_touch t ws now message st :
  open_with t (set_clients (Map.mutate ws (touch now message) (clients st)) st)
  = open_with t st.
Proof.
  unfold open_with. apply filter_ext. intros c.
  now rewrite has_type_touch.
Qed.

Lemma role_touch ws now message st c :
  role (set_clients (Map.mutate ws (touch now message) (clients st)) st) c
  = role st c.
Proof.
  unfold role, record. simpl. rewrite get_mutate.
  destruct (Nat.eqb c ws); [|reflexivity].
  destruct (Map.get c (clients st)); simpl; [|reflexivity].
  now rewrite type_touch.
Qed.

Lemma rfid_scan_fields message clk :
  prop (rfid_scan message clk) "type" = Some (JStr "rfid_scan")
  /\ prop (rfid_scan message clk) "rfid_uid" = prop message "rfid_uid"
  /\ prop (rfid_scan message clk) "device_id" = prop message "device_id"
  /\ prop (rfid_scan message clk) "network" = prop message "network"
  /\ prop (rfid_scan message clk) "timestamp" = Some (JStr (toISOString clk)).
Proof.
  unfold rfid_scan.
  destruct (prop message "rfid_uid"), (prop message "device_id"),
    (prop message "network"); repeat split.
Qed.



(** X5.  On [web_connected] the only call is one confirmation to the
    sender: nothing is broadcast.  A registered sender's record gets the
    [type] "web" (and the refreshed [lastPing]); every other record is
    left as it was. *)
Theorem web_announce_is_answered_alone ws message now clk st d :
  record st ws = Some d ->
  prop message "type" = Some (JStr "web_connected") ->
  let st' := on_message ws (inr message) now clk st in
  trace st' = trace st ++ [Send ws web_confirmed]
  /\ record st' ws = Some (set_type "web" (touch now message d))
  /\ (forall c, c <> ws -> record st' c = record st c)
  /\ timers st' = timers st.
Proof.
  intros Hrec Htype st'.
  unfold st'. rewrite (on_message_string_type _ _ _ _ _ _ Htype).
  unfold dispatch. rewrite Htype. simpl String.eqb. cbv iota.
  split; [reflexivity|]. unfold record in *. simpl.
  split.
  { rewrite !get_mutate, Nat.eqb_refl, Hrec. reflexivity. }
  split; [|reflexivity].
  intros c Hc. apply Nat.eqb_neq in Hc. now rewrite !get_mutate, Hc.
Qed.

Lemma web_announce_is_answered_alone_witness :
  trace (on_message 3 (inr hello_web) 1700000000500 noon shop_floor)
  = trace shop_floor ++ [Send 3 web_confirmed].
Proof.
  destruct (web_announce_is_answered_alone 3 hello_web 1700000000500 noon
              shop_floor silent_socket eq_refl eq_refl) as [H _].
  exact H.
Defined.

(** X6.  On [ping] the only call is one [pong] to the sender, carrying
    the server's clock reading; no role changes, no other record is
    touched and no timer is registered. *)
Theorem ping_is_answered_with_pong ws message now clk st :
  prop message "type" = Some (JStr "ping") ->
  let st' := on_message ws (inr message) now clk st in
  trace st' = trace st ++ [Send ws (pong clk)]
  /\ prop (pong clk) "type" = Some (JStr "pong")
  /\ prop (pong clk) "timestamp" = Some (JNum (Date_now clk))
  /\ (forall c, role st' c = role st c)
  /\ (forall c, c <> ws -> record st' c = record st c)
  /\ timers st' = timers st.
Proof.
  intros Htype st'.
  unfold st'. rewrite (on_message_string_type _ _ _ _ _ _ Htype).
  unfold dispatch. rewrite Htype. simpl String.eqb. cbv iota.
  split; [reflexivity|]. split; [reflexivity|]. split; [reflexivity|].
  split; [intros c; apply (role_touch ws now message st c)|].
  split; [|reflexivity].
  intros c Hc. apply Nat.eqb_neq in Hc. unfold record. simpl.
  now rewrite get_mutate, Hc.
Qed.

Lemma ping_is_answered_with_pong_witness :
  trace (on_message 1 (inr (JObj [("type", JStr "ping")])) 1700000000500 noon
                    shop_floor)
  = trace shop_floor ++ [Send 1 (pong noon)].
Proof.
  destruct (ping_is_answered_with_pong 1 (JObj [("type", JStr "ping")])
              1700000000500 noon shop_floor eq_refl) as [H _].
  exact H.
Defined.

(** X7.  When a connection is accepted the new socket is open and in
    [wss.clients], its record is fresh ([type] "unknown", [device_id]
    [null], [lastPing] the clock reading), the only call is one [welcome]
    to the new socket, carrying the server's environment, and the records
    of the other sockets are left as they were. *)
Theorem accepted_connection_is_registered_and_greeted st ws clientIP clk1 clk2 :
  exited st = None ->
  let st' := step st (Connection ws clientIP clk1 clk2) in
  trace st' = trace st ++ [Send ws (welcome (NODE_ENV st) clk2)]
  /\ prop (welcome (NODE_ENV st) clk2) "environment" = Some (JStr (NODE_ENV st))
  /\ record st' ws
     = Some (mkClientData clientIP (toISOString clk1) "unknown" JNull
                          (Date_now clk1))
  /\ (forall c, c <> ws -> record st' c = record st c)
  /\ In ws (wss_clients st')
  /\ readyState st' ws = 1%Z.
Proof.
  intros Hrun st'. unfold st', step. rewrite Hrun.
  unfold on_connection, record. simpl.
  split; [reflexivity|]. split; [reflexivity|].
  split; [now rewrite get_set, Nat.eqb_refl|].
  split.
  { intros c Hc. apply Nat.eqb_neq in Hc. now rewrite get_set, Hc. }
  split; [|now rewrite Nat.eqb_refl].
  destruct (existsb (Nat.eqb ws) (wss_clients st)) eqn:E.
  - apply existsb_exists in E. destruct E as [x [Hx E]].
    apply Nat.eqb_eq in E. now subst x.
  - apply in_or_app. right. now left.
Qed.

Lemma accepted_connection_is_registered_and_greeted_witness :
  trace (step shop_floor (Connection 4 "10.0.0.4" noon noon))
  = trace shop_floor ++ [Send 4 (welcome "production" noon)].
Proof.
  destruct (accepted_connection_is_registered_and_greeted shop_floor 4
              "10.0.0.4" noon noon eq_refl) as [H _].
  exact H.
Defined.

(** ** Exceptions in the message handler *)

Lemma dispatch_thrown ws message clk st e s :
  dispatch ws message clk st = Thrown e s ->
  e = conversion_error
  /\ trace s = trace st /\ timers s = timers st
  /\ wss_clients s = wss_clients st /\ readyState s = readyState st
  /\ (clients s = clients st
      \/ clients s = Map.mutate ws (set_type "esp32") (clients st)).
Proof.
  unfold dispatch.
  destruct (prop message "type") as [[| | |t| |]|]; try discriminate.
  destruct (t =? "esp32_connected").
  { destruct (interpolates _); [discriminate|].
    intros H. inversion H. subst. repeat split. now right. }
  destruct (t =? "web_connected"); [discriminate|].
  destruct (t =? "rfid_scan").
  { destruct (interpolates _); [discriminate|].
    intros H. inversion H. subst. repeat split. now left. }
  destruct (t =? "payment_request").
  { destruct (interpolates _); [discriminate|].
    intros H. inversion H. subst. repeat split. now left. }
  destruct (t =? "ping"); discriminate.
Qed.



(** ** Keep-alive and eviction, continued *)

Lemma ping_all_eq st :
  ping_all st = emit (map Ping (filter (is_open st) (wss_clients st))) st.
Proof.
  unfold ping_all.
  assert (G : forall l s,
             fold_left (fun s client => if is_open s client
                                        then Ws.ping client s else s) l s
             = emit (map Ping (filter (is_open s) l)) s).
  { induction l as [|c l IH]; intros s; simpl; [now rewrite emit_nil|].
    destruct (is_open s c) eqn:E.
    - rewrite IH. unfold Ws.ping. rewrite emit_emit. reflexivity.
    - apply IH. }
  apply G.
Qed.

(** X9.  The 30 s interval calls [ping] once on each client of
    [wss.clients] whose socket is open, in order, and on no other; it
    leaves the registry untouched, so a ping sent does not count as a sign
    of life. *)
Theorem heartbeat_pings_open_clients st :
  trace (ping_all st)
  = trace st ++ map Ping (filter (is_open st) (wss_clients st))
  /\ clients (ping_all st) = clients st
  /\ readyState (ping_all st) = readyState st
  /\ (forall c, In (Ping c) (map Ping (filter (is_open st) (wss_clients st))) <->
                In c (wss_clients st) /\ readyState st c = 1%Z).
Proof.
  rewrite ping_all_eq.
  split; [reflexivity|]. split; [reflexivity|]. split; [reflexivity|].
  intros c. rewrite in_map_iff. unfold is_open. split.
  - intros [x [E H]]. inversion E; subst.
    apply filter_In in H. now rewrite Z.eqb_eq in H.
  - intros [H1 H2]. exists c. split; [reflexivity|].
    apply filter_In. now rewrite Z.eqb_eq.
Qed.

Lemma unique_record k d d' (m : list (conn * ClientData)) :
  NoDup (map fst m) -> In (k, d) m -> In (k, d') m -> d = d'.
Proof.
  induction m as [|[k0 d0] m IH]; simpl; [contradiction|].
  intros Hnd [E|H] [E'|H'].
  - congruence.
  - inversion E; subst. apply NoDup_cons_iff in Hnd. destruct Hnd as [Hk _].
    exfalso. apply Hk. now apply (in_map fst _ (k, d')).
  - inversion E'; subst. apply NoDup_cons_iff in Hnd. destruct Hnd as [Hk _].
    exfalso. apply Hk. now apply (in_map fst _ (k, d)).
  - apply NoDup_cons_iff in Hnd. destruct Hnd as [_ Hnd]. now apply IH.
Qed.

(** The calls of the walk, however it ends: [terminate] on stale entries
    only. *)
Lemma sweep_calls now entries : forall st,
  exists visited,
    trace (outcome_state (sweep now entries st))
    = trace st ++ map (fun entry => Terminate (fst entry)) visited
    /\ (forall entry, In entry visited ->
                      In entry entries /\ stale now (snd entry) = true).
Proof.
  induction entries as [|[ws data] entries IH]; intros st; cbn [sweep].
  - exists []. simpl. rewrite app_nil_r. split; [reflexivity|]. intros ? [].
  - destruct (stale now data) eqn:Hst.
    + destruct (interpolates _).
      * destruct (IH (Ws.terminate ws st)) as [visited [T V]].
        exists ((ws, data) :: visited). split.
        { rewrite T, terminate_trace, <- app_assoc. reflexivity. }
        intros entry [<-|H]; [split; [now left|exact Hst]|].
        destruct (V entry H). split; [now right|assumption].
      * exists []. simpl. rewrite app_nil_r. split; [reflexivity|]. intros ? [].
    + destruct (IH st) as [visited [T V]].
      exists visited. split; [exact T|].
      intros entry H. destruct (V entry H). split; [now right|assumption].
Qed.

Lemma sweep_readyState now entries c : forall st s,
  sweep now entries st = Done s ->
  (forall d, In (c, d) entries -> stale now d = false) ->
  readyState s c = readyState st c.
Proof.
  induction entries as [|[ws data] entries IH]; intros st s; cbn [sweep].
  - intros H _. now inversion H.
  - intros H Hc. destruct (stale now data) eqn:Hst.
    + destruct (interpolates _); [|discriminate].
      rewrite (IH _ _ H); [|intros d Hd; apply Hc; now right].
      assert (Hne : Nat.eqb c ws = false).
      { apply Nat.eqb_neq. intros ->.
        rewrite (Hc data) in Hst; [discriminate|now left]. }
      unfold Ws.terminate. destruct (Z.eqb (readyState st ws) 3); [reflexivity|].
      simpl. now rewrite Hne.
    + apply (IH _ _ H). intros d Hd. apply Hc. now right.
Qed.

Lemma shutdown_trace st :
  trace (shutdown st)
  = trace st
    ++ map (fun client => Close client 1000 "Server shutting down") (wss_clients st)
    ++ [ServerClose].
Proof. unfold shutdown. simpl. now rewrite close_all_trace, <- app_assoc. Qed.

(** A record heard from within the last 120000 ms is passed over by the
    walk, however the walk ends. *)
Lemma sweep_spares now st ws d :
  record st ws = Some d ->
  NoDup (keys st) ->
  (now - lastPing d <= 120000)%Z ->
  exited st = None ->
  (forall d', In (ws, d') (clients st) -> stale now d' = false)
  /\ exists calls,
      trace (step st (SweepInterval now)) = trace st ++ calls
      /\ ~ In (Terminate ws) calls.
Proof.
  intros Hrec Hnd Hlive Hrun.
  assert (Hfresh : forall d', In (ws, d') (clients st) -> stale now d' = false).
  { intros d' Hd'. apply get_In in Hrec.
    rewrite (unique_record ws d' d (clients st) Hnd Hd' Hrec).
    unfold stale. rewrite Z.gtb_ltb. apply Z.ltb_ge. exact Hlive. }
  split; [exact Hfresh|].
  unfold step. rewrite Hrun. unfold eviction_sweep.
  destruct (sweep_calls now (clients st) st) as [visited [T V]].
  assert (Hnot : ~ In (Terminate ws) (map (fun entry : conn * ClientData =>
                                             Terminate (fst entry)) visited)).
  { intros H. apply in_map_iff in H. destruct H as [[k d'] [E H]].
    simpl in E. inversion E; subst k. destruct (V _ H) as [Hin Hst].
    simpl in Hst. rewrite (Hfresh d' Hin) in Hst. discriminate. }
  destruct (sweep now (clients st) st) as [s|e s];
    cbn [uncaught outcome_state] in *.
  - eexists. split; [exact T|exact Hnot].
  - exists (map (fun entry : conn * ClientData => Terminate (fst entry)) visited
            ++ map (fun client => Close client 1000 "Server shutting down")
                   (wss_clients s)
            ++ [ServerClose]).
    split.
    { unfold on_uncaughtException. rewrite shutdown_trace, T.
      now rewrite <- app_assoc. }
    intros H. apply in_app_or in H. destruct H as [H|H]; [now apply Hnot|].
    apply in_app_or in H. destruct H as [H|[H|[]]]; [|discriminate].
    apply in_map_iff in H. destruct H as [x [E _]]. discriminate.
Qed.

(** X10.  A connection heard from within the last 120000 ms is safe from
    the sweep: when the Map holds one record per socket and the record's
    [lastPing] is at most 120000 ms before the sweep's clock reading, the
    sweep, however it ends, does not call [terminate] on that socket, and
    when it ends normally the socket's [readyState] is as it was. *)
Theorem live_connection_is_not_evicted now st ws d :
  record st ws = Some d ->
  NoDup (keys st) ->
  (now - lastPing d <= 120000)%Z ->
  exited st = None ->
  (exists calls,
      trace (step st (SweepInterval now)) = trace st ++ calls
      /\ ~ In (Terminate ws) calls)
  /\ (forall s, eviction_sweep now st = Done s ->
                readyState (step st (SweepInterval now)) ws = readyState st ws).
Proof.
  intros Hrec Hnd Hlive Hrun.
  destruct (sweep_spares now st ws d Hrec Hnd Hlive Hrun) as [Hfresh Hcalls].
  split; [exact Hcalls|].
  intros s Hs. unfold step. rewrite Hrun, Hs. simpl.
  now apply (sweep_readyState now (clients st) ws st s Hs).
Qed.

Lemma live_connection_is_not_evicted_witness :
  exists calls,
    trace (step quiet_reader (SweepInterval 1700000120001))
    = trace quiet_reader ++ calls
    /\ ~ In (Terminate 2) calls.
Proof.
  assert (Hnd : NoDup (keys quiet_reader)).
  { repeat constructor; simpl; intuition discriminate. }
  assert (Hlive : (1700000120001
                   - lastPing (set_lastPing 1700000100000 till_record)
                   <= 120000)%Z).
  { discriminate. }
  exact (proj1 (live_connection_is_not_evicted 1700000120001 quiet_reader 2
                 (set_lastPing 1700000100000 till_record)
                 eq_refl Hnd Hlive eq_refl)).
Defined.

(** X11.  A pong is a sign of life: it makes no call and changes nothing
    but the [lastPing] of the socket's record, and a sweep whose clock
    reading is at most 120000 ms after the pong's does not call
    [terminate] on that socket. *)
Theorem pong_postpones_eviction st ws d t now :
  record st ws = Some d ->
  NoDup (keys st) ->
  (now - t <= 120000)%Z ->
  exited st = None ->
  let st1 := step st (Ponged ws t) in
  trace st1 = trace st
  /\ record st1 ws = Some (set_lastPing t d)
  /\ (forall c, c <> ws -> record st1 c = record st c)
  /\ exists calls,
      trace (step st1 (SweepInterval now)) = trace st1 ++ calls
      /\ ~ In (Terminate ws) calls.
Proof.
  intros Hrec Hnd Hlive Hrun st1.
  assert (R : record st1 ws = Some (set_lastPing t d)).
  { unfold st1, step. rewrite Hrun. unfold record, on_pong in *. simpl.
    now rewrite get_mutate, Nat.eqb_refl, Hrec. }
  split; [unfold st1, step; now rewrite Hrun|].
  split; [exact R|].
  split.
  { intros c Hc. apply Nat.eqb_neq in Hc.
    unfold st1, step. rewrite Hrun. unfold record, on_pong. simpl.
    now rewrite get_mutate, Hc. }
  apply (sweep_spares now st1 ws (set_lastPing t d) R).
  - unfold st1, step. rewrite Hrun. unfold keys, on_pong. simpl.
    now rewrite keys_mutate.
  - exact Hlive.
  - unfold st1, step. now rewrite Hrun.
Qed.

Lemma pong_postpones_eviction_witness :
  exists calls,
    trace (step (step shop_floor (Ponged 1 1700000100000))
                (SweepInterval 1700000120001))
    = trace (step shop_floor (Ponged 1 1700000100000)) ++ calls
    /\ ~ In (Terminate 1) calls.
Proof.
  assert (Hnd : NoDup (keys shop_floor)).
  { repeat constructor; simpl; intuition discriminate. }
  assert (Hlive : (1700000120001 - 1700000100000 <= 120000)%Z).
  { discriminate. }
  destruct (pong_postpones_eviction shop_floor 1 reader_socket 1700000100000
              1700000120001 eq_refl Hnd Hlive eq_refl) as [_ [_ [_ H]]].
  exact H.
Defined.

Lemma sweep_app now l1 l2 : forall st s1,
  sweep now l1 st = Done s1 ->
  sweep now (l1 ++ l2) st = sweep now l2 s1.
Proof.
  induction l1 as [|[ws data] l1 IH]; intros st s1; cbn [sweep app].
  - intros H. now inversion H.
  - destruct (stale now data); [|apply IH].
    destruct (interpolates _); [apply IH|discriminate].
Qed.

(** X12.  A stored [device_id] that does not convert to text turns the
    sweep against the server.  When the first stale record whose
    [device_id] does not print is reached, the sockets of the stale
    records before it have been terminated, the log line raises, the walk
    ends there, and the uncaught exception starts the shutdown: every
    client is sent [close(1000, "Server shutting down")], the listener is
    asked to close and the 10000 ms timer of the forced exit is
    registered. *)
Theorem unprintable_device_id_shuts_server_down now st before ws d after :
  clients st = before ++ (ws, d) :: after ->
  Forall (fun entry => printable (device_id (snd entry)) = true) before ->
  stale now d = true ->
  printable (device_id d) = false ->
  exited st = None ->
  exists s,
    eviction_sweep now st = Thrown conversion_error s
    /\ trace s
       = trace st ++ map (fun entry => Terminate (fst entry))
                         (filter (fun entry => stale now (snd entry)) before)
    /\ step st (SweepInterval now) = shutdown s
    /\ trace (step st (SweepInterval now))
       = trace s
         ++ map (fun client => Close client 1000 "Server shutting down")
                (wss_clients st)
         ++ [ServerClose]
    /\ listener_closing (step st (SweepInterval now)) = true
    /\ In (mkTimer ForcedShutdown 10000) (timers (step st (SweepInterval now))).
Proof.
  intros Hsplit Hbefore Hst Hbad Hrun.
  destruct (sweep_done now before Hbefore st) as [s [E [T _]]].
  exists s.
  assert (Hthrow : eviction_sweep now st = Thrown conversion_error s).
  { unfold eviction_sweep. rewrite Hsplit, (sweep_app now before _ st s E).
    cbn [sweep]. rewrite Hst. unfold interpolates. simpl. now rewrite Hbad. }
  assert (Hw : wss_clients s = wss_clients st).
  { pose proof (sweep_wss now before st) as W. now rewrite E in W. }
  split; [exact Hthrow|]. split; [exact T|].
  unfold step. rewrite Hrun, Hthrow. cbn [uncaught]. unfold on_uncaughtException.
  split; [reflexivity|].
  split; [now rewrite shutdown_trace, Hw|].
  split; [reflexivity|].
  unfold shutdown. simpl. apply in_or_app. right. now left.
Qed.

Lemma unprintable_device_id_shuts_server_down_witness :
  exists s,
    eviction_sweep 1700000120501 poisoned_floor = Thrown conversion_error s
    /\ listener_closing (step poisoned_floor (SweepInterval 1700000120501)) = true.
Proof.
  destruct (unprintable_device_id_shuts_server_down 1700000120501 poisoned_floor
              [(1%nat, reader_socket); (2%nat, till_record)] 3 poisoned_record []
              eq_refl) as [s [H1 [_ [_ [_ [H5 _]]]]]].
  - repeat constructor.
  - reflexivity.
  - reflexivity.
  - reflexivity.
  - exists s. split; [exact H1|exact H5].
Defined.

(** ** After shutdown has begun *)

Lemma close_keeps_not_open x code reason st c :
  readyState st c <> 1%Z -> readyState (Ws.close x code reason st) c <> 1%Z.
Proof.
  intros H. unfold Ws.close. destruct (Z.eqb (readyState st x) 1); [|exact H].
  simpl. destruct (Nat.eqb c x); [discriminate|exact H].
Qed.

Lemma close_closes c code reason st :
  readyState (Ws.close c code reason st) c <> 1%Z.
Proof.
  unfold Ws.close. destruct (Z.eqb (readyState st c) 1) eqn:E.
  - simpl. rewrite Nat.eqb_refl. discriminate.
  - simpl. now apply Z.eqb_neq.
Qed.

Lemma close_all_not_open l : forall st c,
  In c l \/ readyState st c <> 1%Z ->
  readyState (fold_left (fun s client =>
                           Ws.close client 1000 "Server shutting down" s) l st) c
  <> 1%Z.
Proof.
  induction l as [|x l IH]; intros st c H; simpl.
  - destruct H as [[]|H]. exact H.
  - apply IH. destruct H as [[->|H]|H].
    + right. apply close_closes.
    + now left.
    + right. now apply close_keeps_not_open.
Qed.

Lemma filter_none {A : Type} (f : A -> bool) (l : list A) :
  (forall x, In x l -> f x = false) -> filter f l = [].
Proof.
  induction l as [|x l IH]; intros H; simpl; [reflexivity|].
  rewrite (H x (or_introl eq_refl)). apply IH. intros y Hy. apply H. now right.
Qed.


(** X14.  The number each broadcast helper returns is the number of
    [send] calls it has made, and every one of those calls sends the
    message it was given. *)
Theorem broadcast_count_is_number_of_sends message sender st :
  (exists targets,
      trace (snd (broadcastToAll message sender st))
      = trace st ++ sends message targets
      /\ fst (broadcastToAll message sender st) = List.length (sends message targets))
  /\ (exists targets,
        trace (snd (broadcastToESP32 message st))
        = trace st ++ sends message targets
        /\ fst (broadcastToESP32 message st) = List.length (sends message targets))
  /\ (exists targets,
        trace (snd (broadcastToWeb message st))
        = trace st ++ sends message targets
        /\ fst (broadcastToWeb message st) = List.length (sends message targets)).
Proof.
  rewrite broadcastToAll_eq, broadcastToESP32_eq, broadcastToWeb_eq.
  unfold sends. repeat split; eexists; (split; [reflexivity|]);
    simpl; now rewrite length_map.
Qed.

(** ** The status route *)

Lemma get_of_unique k d (m : list (conn * ClientData)) :
  NoDup (map fst m) -> In (k, d) m -> Map.get k m = Some d.
Proof.
  induction m as [|[k0 d0] m IH]; simpl; [contradiction|].
  intros Hnd H. apply NoDup_cons_iff in Hnd. destruct Hnd as [Hk Hnd].
  destruct (Nat.eqb k0 k) eqn:E.
  - apply Nat.eqb_eq in E. subst k0. destruct H as [H|H]; [congruence|].
    exfalso. apply Hk. now apply (in_map fst _ (k, d)).
  - destruct H as [H|H]; [|now apply IH].
    inversion H; subst. now rewrite Nat.eqb_refl in E.
Qed.

Lemma clientList_from_entries getTime clock st : forall entries k,
  (forall c d, In (c, d) entries -> record st c = Some d) ->
  Forall2 (fun c entry =>
             exists d, record st c = Some d
                       /\ prop entry "type" = Some (JStr (type d))
                       /\ prop entry "device_id" = Some (device_id d)
                       /\ prop entry "connected_at" = Some (JStr (connected_at d)))
          (map fst entries) (clientList_from getTime clock k entries).
Proof.
  induction entries as [|[c d] entries IH]; intros k H; simpl; constructor.
  - exists d. split; [apply H; now left|]. repeat split.
  - apply IH. intros c' d' H'. apply H. now right.
Qed.


(** ** What leaves the registry alone *)

(** X16.  Only the acceptance of a connection adds a record and only a
    close removes one.  Every other turn of the event loop (a message, a
    pong, an error, either interval, a timer, a signal, an exception)
    leaves the set of registered sockets as it was; in particular a
    message or a pong arriving on a socket that has no record does not
    create one. *)
Theorem only_accept_and_close_change_the_registry st e :
  (forall ws clientIP clk1 clk2, e <> Connection ws clientIP clk1 clk2) ->
  (forall ws, e <> Closed ws) ->
  keys (step st e) = keys st
  /\ (forall c, record st c = None -> record (step st e) c = None).
Proof.
  intros Hc Hx.
  assert (K : keys (step st e) = keys st).
  { unfold step. destruct (exited st); [reflexivity|].
    destruct e as [ws cip c1 c2|ws data now clk|ws|ws|ws now| |now|k c1 c2| | | |].
    - now elim (Hc ws cip c1 c2).
    - apply on_message_keys.
    - now elim (Hx ws).
    - reflexivity.
    - unfold keys, on_pong. simpl. apply keys_mutate.
    - unfold keys. now rewrite ping_all_clients.
    - unfold keys, eviction_sweep. now rewrite sweep_clients.
    - unfold keys. now rewrite on_timeout_clients.
    - unfold keys. now rewrite shutdown_clients.
    - unfold keys, on_uncaughtException. now rewrite shutdown_clients.
    - reflexivity.
    - unfold on_server_closed. now destruct (listener_closing st). }
  split; [exact K|].
  assert (G : forall (m : list (conn * ClientData)) c,
             Map.get c m = None <-> ~ In c (map fst m)).
  { induction m as [|[k d] m IH]; intros c; simpl; [tauto|].
    destruct (Nat.eqb k c) eqn:E.
    - apply Nat.eqb_eq in E. split; [discriminate|tauto].
    - apply Nat.eqb_neq in E. rewrite IH. tauto. }
  intros c H. unfold record in *. apply G. apply G in H.
  unfold keys in K. now rewrite K.
Qed.

Lemma only_accept_and_close_change_the_registry_witness :
  keys (step shop_floor (Message 9 (inr hello_esp32) 1700000000500 noon))
  = keys shop_floor
  /\ record (step shop_floor (Message 9 (inr hello_esp32) 1700000000500 noon)) 9
     = None.
Proof.
  destruct (only_accept_and_close_change_the_registry shop_floor
              (Message 9 (inr hello_esp32) 1700000000500 noon)) as [K N].
  - discriminate.
  - discriminate.
  - split; [exact K|]. apply N. reflexivity.
Defined.

(** X17.  Traffic on one socket never touches the record of another:
    after a message or a pong on socket [ws], whatever it carries and
    however the handler ends, every other socket's record is what it
    was. *)
Theorem traffic_touches_only_the_sender st ws c :
  c <> ws ->
  (forall data now clk,
      record (step st (Message ws data now clk)) c = record st c)
  /\ (forall now, record (step st (Ponged ws now)) c = record st c).
Proof.
  intros Hne. apply Nat.eqb_neq in Hne. split.
  - intros data now clk. unfold step. destruct (exited st); [reflexivity|].
    unfold record.
    destruct (on_message_clients ws data now clk st) as [E|[m [E|[t [_ E]]]]];
      rewrite E, ?get_mutate, ?Hne; reflexivity.
  - intros now. unfold step. destruct (exited st); [reflexivity|].
    unfold record, on_pong. simpl. now rewrite get_mutate, Hne.
Qed.

Lemma traffic_touches_only_the_sender_witness :
  record (step shop_floor (Message 1 (inr hello_web) 1700000000500 noon)) 2
  = record shop_floor 2.
Proof.
  assert (Hne : 2%nat <> 1%nat). { discriminate. }
  exact (proj1 (traffic_touches_only_the_sender shop_floor 1 2 Hne)
               (inr hello_web) 1700000000500%Z noon).
Defined.
